(** * Podcast chatbot: transcript chunking and retrieval fusion

    A shallow embedding of [md_parser.py], [search_index.py] and the
    [retrieve] method of [rag_pipeline.py], with the properties of the
    chunkers, the episode loader, the deduplication pass and the retrieval
    step stated and proved over it.

    Python values are modelled as follows.
    - [int] is [Z]; [divmod] by a positive constant is [Z.div]/[Z.modulo]
      (both floor, like Python).
    - [str] is [string]; every character is read as the code point of the
      same number (0..255).
    - a [dict] read only through [in] and [.get(key, default)] on a fixed
      set of keys is a record of [option] fields ([None]: key absent);
      a [dict] keyed by arbitrary strings is a [gmap string _].
    - a function that may raise, or whose loop may run for ever, returns a
      [result]. *)

From Stdlib Require Import ZArith List Ascii String DecimalString DecimalZ Sorted Lia.
From stdpp Require Import gmap strings.
Import ListNotations.

Local Open Scope string_scope.
Local Open Scope list_scope.
Local Open Scope Z_scope.

(* ------------------------------------------------------------------ *)
(** ** Python string primitives *)

Module Py.

(** [str(n)] for an [int]. *)
Definition str (n : Z) : string := NilZero.string_of_int (Z.to_int n).

(** [c.isspace()] on the code points below 256. *)
Definition isspace (c : ascii) : bool :=
  let n := nat_of_ascii c in
  ((9 <=? n)%nat && (n <=? 13)%nat)
  || ((28 <=? n)%nat && (n <=? 32)%nat)
  || (n =? 133)%nat || (n =? 160)%nat.

Fixpoint lstrip (s : string) : string :=
  match s with
  | EmptyString => EmptyString
  | String c s' => if isspace c then lstrip s' else s
  end.

Fixpoint rstrip (s : string) : string :=
  match s with
  | EmptyString => EmptyString
  | String c s' =>
      match rstrip s' with
      | EmptyString => if isspace c then EmptyString else String c EmptyString
      | r => String c r
      end
  end.

(** [s.strip()] *)
Definition strip (s : string) : string := rstrip (lstrip s).

(** [sep.join(parts)] *)
Fixpoint join (sep : string) (parts : list string) : string :=
  match parts with
  | [] => ""
  | [p] => p
  | p :: ps => p +:+ sep +:+ join sep ps
  end.

(** [f"{n:02d}"]: the decimal rendering, left-padded with zeros to width 2
    (a sign counts for the width). *)
Definition format_02d (n : Z) : string :=
  let s := str n in
  if (String.length s <? 2)%nat then "0" +:+ s else s.

(** Truthiness of a string: [if s:]. *)
Definition truthy (s : string) : bool :=
  match s with EmptyString => false | _ => true end.

(** [xs[:k]] *)
Definition slice_to {A} (xs : list A) (k : Z) : list A :=
  if 0 <=? k then firstn (Z.to_nat k) xs
  else firstn (length xs - Z.to_nat (- k)) xs.

(** [xs[k:]] for [k = len(ys)], a non-negative index. *)
Definition slice_from {A} (xs : list A) (k : nat) : list A := skipn k xs.

(** [sorted(set_of_strings)]: the elements, without repetition, in
    increasing code-point order. *)
Fixpoint sorted_insert (x : string) (l : list string) : list string :=
  match l with
  | [] => [x]
  | y :: l' =>
      match String.compare x y with
      | Lt => x :: l
      | Eq => l
      | Gt => y :: sorted_insert x l'
      end
  end.

Definition sorted_set (l : list string) : list string :=
  fold_left (fun acc x => sorted_insert x acc) l [].

End Py.

(** The outcome of a call: a returned value, a raised exception, or a loop
    that never ends. *)
Inductive exn : Type :=
| FileNotFoundError
| ValueError
| OtherException (msg : string).

Inductive result (A : Type) : Type :=
| Returns (a : A)
| Raises (e : exn)
| Diverges.
Arguments Returns {A} a.
Arguments Raises {A} e.
Arguments Diverges {A}.

(* ------------------------------------------------------------------ *)
(** ** md_parser.py: data *)

(** One entry of the [transcript] list: a dict with some of the keys
    [header], [line], [sec], [who]. *)
Record item : Type := Item {
  header : option string;
  line   : option string;
  sec    : option Z;
  who    : option string
}.

(** One entry of [quotableClips]. *)
Record clip : Type := Clip {
  name        : option string;
  startOffset : option Z;
  endOffset   : option Z;
  url         : option string
}.

(** The values stored in the clip lookup. *)
Record clip_info : Type := ClipInfo {
  ci_start_seconds : Z;
  ci_end_seconds   : Z;
  ci_deep_link     : string;
  ci_timestamp     : string
}.

(** The parsed YAML front matter, as far as the chunkers read it:
    [ids.youtube], [title], [short], [season], [episode], [transcript],
    [quotableClips]. *)
Record yaml_data : Type := YamlData {
  ids_youtube   : option string;
  title         : option string;
  short         : option string;
  season        : option Z;
  episode       : option Z;
  transcript    : option (list item);
  quotableClips : option (list clip)
}.

Inductive chunk_kind : Type := HeaderChunk | WindowChunk.

(** A chunk (the spec's excerpt). *)
Record chunk : Type := Chunk {
  chunk_type    : chunk_kind;
  section       : string;
  text          : string;
  speakers      : string;
  episode_title : string;
  short_title   : string;
  video_id      : string;
  c_season      : string;
  episode_num   : string;
  start_seconds : Z;
  timestamp     : string;
  deep_link     : string
}.

(* ------------------------------------------------------------------ *)
(** ** md_parser.py: clip lookup and timestamps *)

Definition seconds_to_timestamp (seconds : Z) : string :=
  let minutes := seconds / 60 in
  let secs := seconds mod 60 in
  Py.str minutes +:+ ":" +:+ Py.format_02d secs.

Definition clip_entry (c : clip) : clip_info :=
  {| ci_start_seconds := default 0 (startOffset c);
     ci_end_seconds   := default 0 (endOffset c);
     ci_deep_link     := default "" (url c);
     ci_timestamp     := seconds_to_timestamp (default 0 (startOffset c)) |}.

Definition build_clip_lookup (quotable_clips : option (list clip))
  : gmap string clip_info :=
  fold_left (fun lookup c => <[default "" (name c) := clip_entry c]> lookup)
            (default [] quotable_clips) ∅.

(* ------------------------------------------------------------------ *)
(** ** md_parser.py: rendering accumulated lines

    Both chunkers run the same loop over the entries of a chunk: it fills
    [text_parts] and [speakers_seen]. *)

Definition entry_speaker (entry : item) : string := default "" (who entry).

Definition entry_line (entry : item) : string :=
  Py.strip (default "" (line entry)).

Definition text_part (entry : item) : string :=
  let speaker := entry_speaker entry in
  if Py.truthy speaker then speaker +:+ ": " +:+ entry_line entry
  else entry_line entry.

Definition text_parts (lines : list item) : list string :=
  map text_part lines.

Definition speakers_seen (lines : list item) : list string :=
  List.filter Py.truthy (map entry_speaker lines).

Definition combined_text (lines : list item) : string :=
  Py.join " " (text_parts lines).

Definition joined_speakers (lines : list item) : string :=
  Py.join ", " (Py.sorted_set (speakers_seen lines)).

Definition meta_video_id (episode_meta : yaml_data) : string :=
  default "" (ids_youtube episode_meta).

(** [str(episode_meta.get(key, ""))] for an integer-valued key. *)
Definition meta_str (v : option Z) : string :=
  match v with Some n => Py.str n | None => "" end.

(* ------------------------------------------------------------------ *)
(** ** md_parser.py: chunk_by_headers *)

(** The variables of [chunk_by_headers] that [flush_chunk] closes over. *)
Record header_state : Type := HeaderState {
  chunks         : list chunk;
  current_header : string;
  current_lines  : list item;
  current_start  : Z
}.

Section HeaderChunker.

Variable clip_lookup : gmap string clip_info.
Variable episode_meta : yaml_data.

(** The dict appended by [flush_chunk]. *)
Definition header_chunk (st : header_state) : chunk :=
  let start_sec :=
    match clip_lookup !! current_header st with
    | Some clip_info => ci_start_seconds clip_info
    | None => current_start st
    end in
  let deep_link :=
    match clip_lookup !! current_header st with
    | Some clip_info => ci_deep_link clip_info
    | None =>
        "https://www.youtube.com/watch?v=" +:+ meta_video_id episode_meta
          +:+ "&t=" +:+ Py.str start_sec
    end in
  let timestamp :=
    match clip_lookup !! current_header st with
    | Some clip_info => ci_timestamp clip_info
    | None => seconds_to_timestamp start_sec
    end in
  {| chunk_type    := HeaderChunk;
     section       := current_header st;
     text          := combined_text (current_lines st);
     speakers      := joined_speakers (current_lines st);
     episode_title := default "" (title episode_meta);
     short_title   := default "" (short episode_meta);
     video_id      := meta_video_id episode_meta;
     c_season      := meta_str (season episode_meta);
     episode_num   := meta_str (episode episode_meta);
     start_seconds := start_sec;
     timestamp     := timestamp;
     deep_link     := deep_link |}.

(** [flush_chunk()]: returns the new value of [chunks]. *)
Definition flush_chunk (st : header_state) : list chunk :=
  match current_lines st with
  | [] => chunks st
  | _ :: _ => chunks st ++ [header_chunk st]
  end.

(** One iteration of [for item in transcript]. *)
Definition header_step (st : header_state) (it : item) : header_state :=
  match header it with
  | Some h =>
      {| chunks := flush_chunk st;
         current_header := h;
         current_lines := [];
         current_start :=
           match clip_lookup !! h with
           | Some clip_info => ci_start_seconds clip_info
           | None => 0
           end |}
  | None =>
      match line it with
      | Some _ =>
          {| chunks := chunks st;
             current_header := current_header st;
             current_lines := current_lines st ++ [it];
             current_start := current_start st |}
      | None => st
      end
  end.

Definition header_init : header_state :=
  {| chunks := [];
     current_header := "Introduction";
     current_lines := [];
     current_start := 0 |}.

Definition chunk_by_headers (transcript : list item) : list chunk :=
  flush_chunk (fold_left header_step transcript header_init).

End HeaderChunker.

(* ------------------------------------------------------------------ *)
(** ** md_parser.py: chunk_by_time_window *)

Definition has_line (it : item) : bool :=
  match line it with Some _ => true | None => false end.

Definition entry_sec (l : item) : Z := default 0 (sec l).

Section WindowChunker.

Variable episode_meta : yaml_data.
Variable window_seconds step_seconds : Z.

Definition base_url : string :=
  "https://www.youtube.com/watch?v=" +:+ meta_video_id episode_meta.

(** The list comprehension [window_lines]. *)
Definition window_lines (lines : list item) (window_start : Z) : list item :=
  let window_end := window_start + window_seconds in
  List.filter
    (fun l => (window_start <=? entry_sec l) && (entry_sec l <? window_end))
    lines.

(** The dict appended for a window with at least one line. *)
Definition window_chunk (window_start : Z) (wl : list item) : chunk :=
  {| chunk_type    := WindowChunk;
     section       := "~" +:+ seconds_to_timestamp window_start;
     text          := combined_text wl;
     speakers      := joined_speakers wl;
     episode_title := default "" (title episode_meta);
     short_title   := default "" (short episode_meta);
     video_id      := meta_video_id episode_meta;
     c_season      := meta_str (season episode_meta);
     episode_num   := meta_str (episode episode_meta);
     start_seconds := window_start;
     timestamp     := seconds_to_timestamp window_start;
     deep_link     := base_url +:+ "&t=" +:+ Py.str window_start |}.

(** The [while window_start <= total_secs] loop, run for at most [fuel]
    iterations; [None] when the fuel runs out before the condition fails. *)
Fixpoint window_loop (fuel : nat) (lines : list item) (total_secs : Z)
    (window_start : Z) (chunks : list chunk) : option (list chunk) :=
  if window_start <=? total_secs then
    match fuel with
    | O => None
    | S fuel' =>
        let wl := window_lines lines window_start in
        let chunks' :=
          match wl with
          | [] => chunks
          | _ :: _ => (chunks ++ [window_chunk window_start wl])%list
          end in
        window_loop fuel' lines total_secs (window_start + step_seconds) chunks'
    end
  else Some chunks.

(** The whole function. The loop is given [total_secs + 1] iterations: with
    a positive step that is enough ([window_loop_enough]), and with a step
    that is not positive no amount is ([window_loop_endless]), so the
    result [Diverges] stands for a loop that never ends. *)
Definition chunk_by_time_window (transcript : list item)
  : result (list chunk) :=
  let lines := List.filter has_line transcript in
  match lines with
  | [] => Returns []
  | _ :: _ =>
      let total_secs := entry_sec (List.last lines (Item None None None None)) in
      match window_loop (S (Z.to_nat total_secs)) lines total_secs 0 [] with
      | Some chunks => Returns chunks
      | None => Diverges
      end
  end.

End WindowChunker.

(* ------------------------------------------------------------------ *)
(** ** md_parser.py: parse_md_file and load_all_episodes *)

(** A [.md] file found by the loader: its [name], and what
    [split_frontmatter] does on it, which is to raise or to return the
    parsed YAML. A front matter that is not a mapping makes
    [parse_md_file] raise at its first [data.get]; the [try] of the loader
    treats that like an exception of [split_frontmatter], and it is counted
    with [inl] here. *)
Record md_file : Type := MdFile {
  file_name         : string;
  split_frontmatter : exn + yaml_data
}.

Definition parse_md_file (f : md_file) : result (list chunk) :=
  match split_frontmatter f with
  | inl e => Raises e
  | inr data =>
      match default [] (transcript data) with
      | [] => Returns []
      | (_ :: _) as transcript =>
          let clip_lookup := build_clip_lookup (quotableClips data) in
          let header_chunks := chunk_by_headers clip_lookup data transcript in
          match chunk_by_time_window data 60 30 transcript with
          | Returns window_chunks => Returns (header_chunks ++ window_chunks)%list
          | Raises e => Raises e
          | Diverges => Diverges
          end
      end
  end.

(** The two lists that the loop of [load_all_episodes] fills. [failed] is
    only printed; [all_segments] is the return value. *)
Record load_state : Type := LoadState {
  all_segments : list chunk;
  failed       : list string
}.

(** The body of [for md_file in md_files], with its [try]/[except
    Exception]. *)
Definition load_step (st : result load_state) (f : md_file)
  : result load_state :=
  match st with
  | Returns st =>
      match parse_md_file f with
      | Returns segments =>
          Returns {| all_segments := all_segments st ++ segments;
                     failed := failed st |}
      | Raises _ =>
          Returns {| all_segments := all_segments st;
                     failed := failed st ++ [file_name f] |}
      | Diverges => Diverges
      end
  | other => other
  end.

Definition SKIP_FILES : list string := ["_template.md"].

Definition skipped (f : md_file) : bool :=
  existsb (String.eqb (file_name f)) SKIP_FILES.

(** The directory is [None] when the path does not exist, and otherwise the
    files matched by [**/*.md] in sorted order (dropping the skipped names
    before or after sorting gives the same list). *)
Definition load_run (episodes_dir : option (list md_file))
  : result load_state :=
  match episodes_dir with
  | None => Raises FileNotFoundError
  | Some found =>
      let md_files := List.filter (fun f => negb (skipped f)) found in
      match md_files with
      | [] => Raises ValueError
      | _ :: _ =>
          fold_left load_step md_files
                    (Returns {| all_segments := []; failed := [] |})
      end
  end.

Definition load_all_episodes (episodes_dir : option (list md_file))
  : result (list chunk) :=
  match load_run episodes_dir with
  | Returns st => Returns (all_segments st)
  | Raises e => Raises e
  | Diverges => Diverges
  end.

(* ------------------------------------------------------------------ *)
(** ** search_index.py: deduplicate_results *)

Definition is_duplicate (seen : list (string * Z)) (vid : string) (start : Z)
    (min_gap_seconds : Z) : bool :=
  existsb
    (fun kept =>
       String.eqb (fst kept) vid
       && (Z.abs (snd kept - start) <? min_gap_seconds))
    seen.

(** The [for r in results] loop over the two lists [seen] and [unique]. *)
Fixpoint dedup_loop (min_gap_seconds : Z) (results : list chunk)
    (seen : list (string * Z)) (unique : list chunk) : list chunk :=
  match results with
  | [] => unique
  | r :: rest =>
      let vid := video_id r in
      let start := start_seconds r in
      if is_duplicate seen vid start min_gap_seconds
      then dedup_loop min_gap_seconds rest seen unique
      else dedup_loop min_gap_seconds rest
             (seen ++ [(vid, start)]) (unique ++ [r])
  end.

Definition deduplicate_results (results : list chunk) (min_gap_seconds : Z)
  : list chunk :=
  dedup_loop min_gap_seconds results [] [].

(* ------------------------------------------------------------------ *)
(** ** search_index.py: search, and rag_pipeline.py: retrieve

    The index is external. A call of [index.search] is modelled by an
    arbitrary function of its arguments, and every call is appended to a
    log, which is the state threaded through [search] and [retrieve]. *)

Record index_call : Type := IndexCall {
  call_query       : string;
  call_filter_dict : gmap string string;
  call_boost_dict  : gmap string Z;
  call_num_results : Z
}.

Definition Logged (A : Type) : Type := list index_call -> A * list index_call.

Definition ret {A} (a : A) : Logged A := fun log => (a, log).

Definition bind {A B} (m : Logged A) (k : A -> Logged B) : Logged B :=
  fun log => let (a, log') := m log in k a log'.

Notation "'let*' x ':=' m 'in' k" := (bind m (fun x => k))
  (at level 10, x name, m at level 100, k at level 200).

Definition run {A} (m : Logged A) : A * list index_call := m [].

Section Retrieval.

(** [index.search(query, filter_dict, boost_dict, num_results)] *)
Variable index_search :
  string -> gmap string string -> gmap string Z -> Z -> list chunk.

Definition call_index (query : string) (filter_dict : gmap string string)
    (boost_dict : gmap string Z) (num_results : Z) : Logged (list chunk) :=
  fun log =>
    (index_search query filter_dict boost_dict num_results,
     log ++ [IndexCall query filter_dict boost_dict num_results]).

Definition boost_dict : gmap string Z :=
  <["speakers" := 1]> (<["short_title" := 1]> (<["episode_title" := 1]>
    (<["section" := 3]> (<["text" := 5]> ∅)))).

(** [if v:] on a [str | None] argument, followed by the assignment. *)
Definition set_filter (key : string) (v : option string)
    (filter_dict : gmap string string) : gmap string string :=
  match v with
  | Some s => if Py.truthy s then <[key := s]> filter_dict else filter_dict
  | None => filter_dict
  end.

Definition search (query : string) (video_id season chunk_type : option string)
    (top_k : Z) : Logged (list chunk) :=
  let filter_dict :=
    set_filter "chunk_type" chunk_type
      (set_filter "season" season
        (set_filter "video_id" video_id ∅)) in
  call_index query filter_dict boost_dict top_k.

(** The interleaving done by [retrieve]: the [zip] loop, then the two
    [extend] calls. *)
Definition interleave (header_results window_results : list chunk)
  : list chunk :=
  (flat_map (fun hw => [fst hw; snd hw]) (combine header_results window_results)
   ++ Py.slice_from header_results (length window_results)
   ++ Py.slice_from window_results (length header_results))%list.

(** [PodcastRAG.retrieve], for an object whose [top_k] attribute is
    [top_k]. *)
Definition retrieve (top_k : Z) (question : string)
    (video_id season : option string) : Logged (list chunk) :=
  let* header_results :=
    search question video_id season (Some "header") top_k in
  let* window_results :=
    search question video_id season (Some "window") top_k in
  let merged := interleave header_results window_results in
  let unique := deduplicate_results merged 30 in
  ret (Py.slice_to unique top_k).

End Retrieval.

(* ------------------------------------------------------------------ *)
(** ** rag_pipeline.py: build_prompt, generate and ask

    Text written to the terminal is not part of the model. The literal
    parts of the prompt are kept byte for byte (UTF-8). *)

Definition nl : string := String (ascii_of_nat 10) EmptyString.
Definition dq : string := String (ascii_of_nat 34) EmptyString.

(** [enumerate(xs, start)] *)
Fixpoint enumerate {A} (start : Z) (xs : list A) : list (Z * A) :=
  match xs with
  | [] => []
  | x :: rest => (start, x) :: enumerate (start + 1) rest
  end.

(** The [block] built for the [i]-th chunk. *)
Definition context_block (i : Z) (c : chunk) : string :=
  String.concat EmptyString
    [ "[Context "; Py.str i; "]"; nl;
      "Episode  : "; episode_title c; nl;
      "Section  : "; section c; nl;
      "Timestamp: "; timestamp c; "  ";
      "(second "; Py.str (start_seconds c); ")"; nl;
      "Link     : "; deep_link c; nl;
      "Speakers : "; speakers c; nl;
      "Content  : "; text c; nl ].

Definition context_blocks (chunks : list chunk) : list string :=
  map (fun ic => context_block (fst ic) (snd ic)) (enumerate 1 chunks).

Definition context_separator : string := nl +:+ "---" +:+ nl.

(** The text of the prompt before the context. *)
Definition prompt_head : string :=
  String.concat EmptyString
    [ "You are a helpful podcast assistant. You answer questions about podcast episodes";
      nl;
      "using ONLY the transcript excerpts provided below. You never invent information.";
      nl;
      nl;
      "ANSWER FORMAT RULES:";
      nl;
      "1. Give a concise answer in 2-4 sentences.";
      nl;
      "2. After each factual claim, cite the source like this:";
      nl;
      "     [MM:SS] → <YouTube link>";
      nl;
      "   Example: Stefan explained this using a Spotify analogy [35:39] → https://youtube.com/...&t=2139";
      nl;
      "3. If multiple excerpts support the answer, cite all of them.";
      nl;
      "4. Mention the speaker's name (Stefan, Alexey, etc.) when attributing a statement.";
      nl;
      "5. If the answer is NOT found in any excerpt below, respond exactly:";
      nl;
      "   ";
      dq;
      "I couldn't find that in the available transcripts. Try rephrasing or asking about a different topic.";
      dq;
      nl;
      "6. NEVER make up timestamps, links, or facts.";
      nl;
      nl;
      "════════════════════════════════════════";
      nl;
      "TRANSCRIPT EXCERPTS:";
      nl ].

(** The text between the context and the question. *)
Definition prompt_middle : string :=
  String.concat EmptyString
    [ nl;
      "════════════════════════════════════════";
      nl;
      nl;
      "QUESTION: " ].

(** The text after the question. *)
Definition prompt_tail : string :=
  String.concat EmptyString
    [ nl;
      nl;
      "ANSWER:" ].

Definition build_prompt (question : string) (chunks : list chunk) : string :=
  let context := Py.join context_separator (context_blocks chunks) in
  prompt_head +:+ context +:+ prompt_middle +:+ question +:+ prompt_tail.

(** The attributes of a [PodcastRAG] object that its methods read. *)
Record PodcastRAG : Type := {
  self_index    : string -> gmap string string -> gmap string Z -> Z
                  -> list chunk;
  self_segments : list chunk;
  self_model    : string;
  self_top_k    : Z
}.

(** [PodcastRAG.__init__]: [api_key] is the value of the environment
    variable [GROQ_API_KEY], [None] when it is not set. *)
Definition new_PodcastRAG (api_key : option string)
    (index : string -> gmap string string -> gmap string Z -> Z -> list chunk)
    (segments : list chunk) (model : string) (top_k : Z)
  : result PodcastRAG :=
  if Py.truthy (default "" api_key) then
    Returns {| self_index := index; self_segments := segments;
               self_model := model; self_top_k := top_k |}
  else Raises ValueError.

Definition default_model : string := "llama3-8b-8192".
Definition default_top_k : Z := 5.




Section Generation.

(** The hosted model: from the model name and the prompt, the content of
    the first choice, or the exception of the client. *)
Variable complete : string -> string -> exn + string.



End Generation.

(* ------------------------------------------------------------------ *)
(** ** chatbot.py: get_unique_episodes and startup *)

Record episode_entry : Type := EpisodeEntry {
  ep_video_id    : string;
  ep_title       : string;
  ep_season      : string;
  ep_episode_num : string
}.

(** [a < b] on the sort keys [(season, episode_num)], compared as tuples
    of strings. *)
Definition key_lt (a b : episode_entry) : bool :=
  match String.compare (ep_season a) (ep_season b) with
  | Lt => true
  | Gt => false
  | Eq =>
      match String.compare (ep_episode_num a) (ep_episode_num b) with
      | Lt => true
      | _ => false
      end
  end.

(** [list.sort(key=...)] is stable: an element goes behind the elements
    with a smaller key and before all others that followed it. *)
Fixpoint sort_insert (x : episode_entry) (l : list episode_entry)
  : list episode_entry :=
  match l with
  | [] => [x]
  | y :: l' => if key_lt y x then y :: sort_insert x l' else x :: l
  end.

Definition stable_sort (l : list episode_entry) : list episode_entry :=
  fold_right sort_insert [] l.

(** The body of [for s in segments], on the set [seen] and the list
    [episodes]. *)
Definition unique_step (st : gset string * list episode_entry) (s : chunk)
  : gset string * list episode_entry :=
  let vid := video_id s in
  if Py.truthy vid && negb (bool_decide (vid ∈ fst st)) then
    ({[ vid ]} ∪ fst st,
     snd st ++ [ {| ep_video_id := vid;
                    ep_title := episode_title s;
                    ep_season := c_season s;
                    ep_episode_num := episode_num s |} ])
  else st.

Definition get_unique_episodes (segments : list chunk) : list episode_entry :=
  stable_sort (snd (fold_left unique_step segments (∅, []))).

(** How [startup] ends: with the objects it returns, by [SystemExit], by an
    exception, or never. *)
Inductive startup_outcome : Type :=
| Ready (rag : PodcastRAG) (segments : list chunk)
| Exits (code : Z)
| Fails (e : exn)
| Hangs.

Section Startup.

(** [build_index]: the index fitted on the segments, as the function that
    answers its queries. *)
Variable build_index :
  list chunk -> string -> gmap string string -> gmap string Z -> Z -> list chunk.

(** The outcome, and the arguments of the calls of [build_index]. *)
Definition startup (api_key : option string)
    (episodes_dir : option (list md_file))
  : startup_outcome * list (list chunk) :=
  match load_all_episodes episodes_dir with
  | Raises e => (Fails e, [])
  | Diverges => (Hangs, [])
  | Returns [] => (Exits 1, [])
  | Returns ((_ :: _) as segments) =>
      let index := build_index segments in
      match new_PodcastRAG api_key index segments default_model default_top_k with
      | Returns rag => (Ready rag segments, [segments])
      | Raises e => (Fails e, [segments])
      | Diverges => (Hangs, [segments])
      end
  end.

End Startup.

(* ------------------------------------------------------------------ *)
(** ** Vocabulary of the statements *)

(** The digit character of a number below ten, and the two-digit rendering
    of a number below one hundred. *)
Definition digit (d : Z) : ascii := ascii_of_nat (48 + Z.to_nat d).

Definition two_digits (r : Z) : string :=
  String (digit (r / 10)) (String (digit (r mod 10)) EmptyString).

(** Reading back the output of [Py.str]. *)
Definition read_int (s : string) : option Z :=
  option_map Z.of_int (NilZero.int_of_string s).

(** What the window loop adds: a chunk for a window start that is a
    non-negative multiple of the step and whose window holds a line. *)
Definition window_made (episode_meta : yaml_data)
    (window_seconds step_seconds : Z) (lines : list item) (c : chunk) : Prop :=
  exists k, 0 <= k /\
    c = window_chunk episode_meta (k * step_seconds)
          (window_lines window_seconds lines (k * step_seconds))
    /\ window_lines window_seconds lines (k * step_seconds) <> [].

(** Two invariants of the loop of [chunk_by_headers]: without a clip, the
    start recorded for the current header is 0; and the accumulated lines
    are spoken lines of the transcript. *)
Definition start_inv (clip_lookup : gmap string clip_info)
    (st : header_state) : Prop :=
  clip_lookup !! current_header st = None -> current_start st = 0.

Definition lines_inv (transcript : list item) (st : header_state) : Prop :=
  Forall (fun it => In it transcript /\ header it = None /\ line it <> None)
         (current_lines st).

(** The filter that [search] builds for one kind of chunk. *)
Definition kind_filter (video_id season : option string) (kind : string)
  : gmap string string :=
  set_filter "chunk_type" (Some kind)
    (set_filter "season" season (set_filter "video_id" video_id ∅)).

(** Whether reading the front matter of a file raised, and the chunks that
    a file contributes. *)
Definition raised (f : md_file) : bool :=
  match split_frontmatter f with inl _ => true | inr _ => false end.

Definition segments_of (f : md_file) : list chunk :=
  match parse_md_file f with
  | Returns segments => segments
  | _ => []
  end.

Definition kept_files (found : list md_file) : list md_file :=
  List.filter (fun f => negb (skipped f)) found.

(** Two results that deduplication tells apart: they belong to different
    videos, or their starts are at least the gap apart. *)
Definition far_apart (min_gap_seconds : Z) (a b : chunk) : Prop :=
  video_id a = video_id b ->
  min_gap_seconds <= Z.abs (start_seconds a - start_seconds b).

(** A result that stands for another one: same video, starts less than
    the gap apart. *)
Definition stands_for (min_gap_seconds : Z) (k r : chunk) : Prop :=
  video_id k = video_id r /\
  Z.abs (start_seconds k - start_seconds r) < min_gap_seconds.

(** The results of one video. *)
Definition of_video (v : string) (results : list chunk) : list chunk :=
  List.filter (fun r => String.eqb (video_id r) v) results.

(** Taking turns: the first of one list, the first of the other, the
    second of the one, and so on; the rest of the longer list at the end. *)
Fixpoint alternate {A} (xs ys : list A) : list A :=
  match xs, ys with
  | x :: xs', y :: ys' => x :: y :: alternate xs' ys'
  | [], _ => ys
  | _, [] => xs
  end.

(** A scope argument that counts: given and not empty. *)
Definition given (v : option string) : option string :=
  match v with
  | Some s => if Py.truthy s then Some s else None
  | None => None
  end.

(** [sub] occurs in [s]. *)
Definition occurs_in (sub s : string) : Prop :=
  exists before after, s = before +:+ sub +:+ after.

(** The clips that carry a given name (a clip without name has the
    name [""]). *)
Definition clips_named (n : string) (clips : list clip) : list clip :=
  List.filter (fun c => String.eqb (default "" (name c)) n) clips.

(** The entries that [chunk_by_headers] accumulates: no [header] key, and a
    [line] key. *)
Definition is_spoken (it : item) : bool :=
  match header it, line it with
  | None, Some _ => true
  | _, _ => false
  end.

(** A chunk and the section it was flushed from: the label and the
    accumulated lines. *)
Definition chunk_of_group (c : chunk) (g : string * list item) : Prop :=
  section c = fst g /\
  text c = combined_text (snd g) /\
  speakers c = joined_speakers (snd g) /\
  snd g <> [].

(** The state after a prefix of the transcript, in terms of the sections
    closed so far and the one that is open. *)
Definition grouped (processed : list item) (st : header_state) : Prop :=
  exists groups,
    Forall2 chunk_of_group (chunks st) groups /\
    concat (map snd groups) ++ current_lines st
    = List.filter is_spoken processed /\
    Forall (fun g => fst g = "Introduction" \/
                     exists it, In it processed /\ header it = Some (fst g))
           groups /\
    (current_header st = "Introduction" \/
     exists it, In it processed /\ header it = Some (current_header st)).

(** The lines that the window chunker slides over, and the time of the
    last of them. *)
Definition spoken_lines (transcript : list item) : list item :=
  List.filter has_line transcript.

Definition last_second (transcript : list item) : Z :=
  entry_sec (List.last (spoken_lines transcript) (Item None None None None)).

(** The chunk of the window that starts at the [k]-th step, for a window
    that holds a line. *)
Definition is_window (episode_meta : yaml_data) (window_seconds step_seconds : Z)
    (transcript : list item) (k : Z) (c : chunk) : Prop :=
  window_lines window_seconds (spoken_lines transcript) (k * step_seconds)
  <> [] /\
  c = window_chunk episode_meta (k * step_seconds)
        (window_lines window_seconds (spoken_lines transcript)
                      (k * step_seconds)).

(** A chunk that carries the metadata of a document. *)
Definition carries_metadata (data : yaml_data) (c : chunk) : Prop :=
  video_id c = default "" (ids_youtube data) /\
  episode_title c = default "" (title data) /\
  short_title c = default "" (short data) /\
  c_season c = meta_str (season data) /\
  episode_num c = meta_str (episode data).

(** The entry that [get_unique_episodes] makes from a segment, the list
    of entries before sorting, and the comparison of two sort keys. *)
Definition entry_of (s : chunk) : episode_entry :=
  {| ep_video_id := video_id s;
     ep_title := episode_title s;
     ep_season := c_season s;
     ep_episode_num := episode_num s |}.

Definition first_seen (segments : list chunk) : list episode_entry :=
  snd (fold_left unique_step segments (∅, [])).

Definition key_compare (a b : episode_entry) : comparison :=
  match String.compare (ep_season a) (ep_season b) with
  | Eq => String.compare (ep_episode_num a) (ep_episode_num b)
  | r => r
  end.

Definition same_key (a b : episode_entry) : bool :=
  match key_compare a b with Eq => true | _ => false end.

(** [a] may stand before [b] in a sorted list. *)
Definition key_le (a b : episode_entry) : Prop := key_lt b a = false.

(** The state of the loop of [get_unique_episodes] after the segments
    [processed]: [seen] holds the ids of the entries; the ids are
    pairwise different; every entry was made from the first segment with
    its id; every id that is not empty has an entry. *)
Definition unique_inv (processed : list chunk)
    (st : gset string * list episode_entry) : Prop :=
  (forall v, v ∈ fst st <-> In v (map ep_video_id (snd st))) /\
  List.NoDup (map ep_video_id (snd st)) /\
  (forall e, In e (snd st) ->
     exists before s after,
       processed = before ++ s :: after /\
       video_id s <> "" /\
       (forall x, In x before -> video_id x <> video_id s) /\
       e = entry_of s) /\
  (forall s, In s processed -> video_id s <> "" ->
     In (video_id s) (map ep_video_id (snd st))).

(* ------------------------------------------------------------------ *)
(** ** Example data *)

Module Ex.

Definition meta : yaml_data :=
  {| ids_youtube := Some "V1"; title := Some "Episode"; short := None;
     season := Some 8; episode := Some 4;
     transcript := None; quotableClips := None |}.

(** A spoken line without a speaker. *)
Definition spoken (s : Z) (t : string) : item :=
  {| header := None; line := Some t; sec := Some s; who := None |}.

Definition l10 := spoken 10 "a".
Definition l40 := spoken 40 "b".
Definition l70 := spoken 70 "c".
Definition l100 := spoken 100 "d".

Definition four_lines : list item := [l10; l40; l70; l100].

Definition heading (h : string) : item :=
  {| header := Some h; line := None; sec := None; who := None |}.

(** A section without a clip, whose first line is at second 42. *)
Definition topic_at_42 : list item :=
  [heading "Topic"; spoken 42 "hello"; spoken 50 "world"].

(** A section whose only line is blank and has no speaker. *)
Definition blank_section : list item := [heading "Topic"; spoken 7 "  "].

(** A file with a transcript, and one whose front matter has none. *)
Definition good_file : md_file :=
  {| file_name := "a-good.md";
     split_frontmatter :=
       inr {| ids_youtube := Some "V1"; title := Some "Episode";
              short := None; season := Some 8; episode := Some 4;
              transcript := Some topic_at_42; quotableClips := None |} |}.

Definition empty_file : md_file :=
  {| file_name := "b-empty.md"; split_frontmatter := inr meta |}.

(** Two header chunks of one video, 21 seconds apart, and a window chunk
    between them. *)
Definition result_at (kind : chunk_kind) (s : Z) : chunk :=
  {| chunk_type := kind; section := "Topic"; text := "hello";
     speakers := ""; episode_title := "Episode"; short_title := "";
     video_id := "V1"; c_season := "8"; episode_num := "4";
     start_seconds := s; timestamp := seconds_to_timestamp s;
     deep_link := "https://www.youtube.com/watch?v=V1&t=" +:+ Py.str s |}.

(** An index that answers every query with the stored chunks of the
    requested kind, whatever number of results is asked for. *)
Definition generous_index (query : string) (filter_dict : gmap string string)
    (boost : gmap string Z) (num_results : Z) : list chunk :=
  match filter_dict !! "chunk_type" with
  | Some "header" => [result_at HeaderChunk 2139; result_at HeaderChunk 2160]
  | Some "window" => [result_at WindowChunk 2150; result_at WindowChunk 2400]
  | _ => []
  end.

Definition topic_clip : clip :=
  {| name := Some "Topic"; startOffset := Some 2139; endOffset := Some 2397;
     url := Some "https://www.youtube.com/watch?v=V1&t=2139" |}.

Definition template_file : md_file :=
  {| file_name := "_template.md";
     split_frontmatter := inl (OtherException "placeholders") |}.

Definition broken_file : md_file :=
  {| file_name := "c-broken.md";
     split_frontmatter := inl (OtherException "no front matter") |}.

End Ex.

(* ================================================================== *)
(** * Properties *)

(* ------------------------------------------------------------------ *)
(** ** Lists *)

Lemma sorted_snoc (l : list Z) (x : Z) :
  StronglySorted Z.lt l ->
  Forall (fun y => y < x) l ->
  StronglySorted Z.lt (l ++ [x]).
Proof.
  induction l as [|a l IH]; intros Hs Hb; simpl.
  - constructor; constructor.
  - inversion Hs; subst. inversion Hb; subst.
    constructor; [apply IH; assumption|].
    apply Forall_app. split; [assumption|].
    constructor; [assumption | constructor].
Qed.

Lemma fold_left_invariant {A B} (P : A -> Prop) (f : A -> B -> A)
    (l : list B) (a : A) :
  P a -> (forall a' b, In b l -> P a' -> P (f a' b)) -> P (fold_left f l a).
Proof.
  revert a. induction l as [|b l IH]; intros a Ha Hstep; simpl.
  - exact Ha.
  - apply IH.
    + apply Hstep; [left; reflexivity | exact Ha].
    + intros a' b' Hin. apply Hstep. right. exact Hin.
Qed.

(* ------------------------------------------------------------------ *)
(** ** Strings and timestamps *)

Lemma append_length (a b : string) :
  String.length (a +:+ b) = (String.length a + String.length b)%nat.
Proof. induction a as [|c a IH]; simpl; [reflexivity | now rewrite IH]. Qed.

Lemma append_inj_length (a b x y : string) :
  String.length a = String.length b ->
  a +:+ x = b +:+ y -> a = b /\ x = y.
Proof.
  revert b. induction a as [|c a IH]; intros [|d b] Hlen Heq;
    simpl in *; try discriminate.
  - split; [reflexivity | assumption].
  - injection Heq as -> Heq. destruct (IH b) as [-> ->]; [lia | assumption |].
    split; reflexivity.
Qed.

Lemma read_int_str (n : Z) : read_int (Py.str n) = Some n.
Proof.
  unfold read_int, Py.str. rewrite NilZero.isi.
  - simpl. now rewrite DecimalZ.of_to.
  - destruct n; simpl; try discriminate.
    intros [= H]. exact (DecimalPos.Unsigned.to_uint_nonnil _ H).
  - destruct n; simpl; try discriminate.
    intros [= H]. exact (DecimalPos.Unsigned.to_uint_nonnil _ H).
Qed.

Lemma str_inj (m n : Z) : Py.str m = Py.str n -> m = n.
Proof.
  intros H. apply (f_equal read_int) in H.
  rewrite !read_int_str in H. congruence.
Qed.

(** The seconds field is always two digits, and can be read back. *)
Lemma format_02d_seconds (r : Z) :
  0 <= r < 60 ->
  String.length (Py.format_02d r) = 2%nat /\
  read_int (Py.format_02d r) = Some r.
Proof.
  intros Hr. rewrite <- (Z2Nat.id r) by lia.
  assert (Hn : (Z.to_nat r < 60)%nat) by lia.
  revert Hn. generalize (Z.to_nat r). clear. intros n Hn.
  do 60 (destruct n as [|n]; [vm_compute; split; reflexivity|]).
  lia.
Qed.

Lemma seconds_to_timestamp_inj (s t : Z) :
  seconds_to_timestamp s = seconds_to_timestamp t -> s = t.
Proof.
  unfold seconds_to_timestamp. intros H.
  pose proof (Z.mod_pos_bound s 60 ltac:(lia)) as Hs.
  pose proof (Z.mod_pos_bound t 60 ltac:(lia)) as Ht.
  destruct (format_02d_seconds _ Hs) as [Hls Hrs].
  destruct (format_02d_seconds _ Ht) as [Hlt Hrt].
  assert (Hlen : String.length (Py.str (s / 60)) = String.length (Py.str (t / 60))).
  { apply (f_equal String.length) in H.
    rewrite !append_length, Hls, Hlt in H. lia. }
  destruct (append_inj_length _ _ _ _ Hlen H) as [Hm Hr].
  apply str_inj in Hm.
  change (String ":" (Py.format_02d (s mod 60))
          = String ":" (Py.format_02d (t mod 60))) in Hr.
  injection Hr as Hr.
  rewrite Hr, Hrt in Hrs. injection Hrs as Hrs.
  rewrite (Z.div_mod s 60), (Z.div_mod t 60) by lia. congruence.
Qed.

(* ------------------------------------------------------------------ *)
(** ** The window loop and its fuel *)

Section WindowLoopFacts.

Variable episode_meta : yaml_data.
Variable window_seconds step_seconds : Z.

Local Abbreviation loop :=
  (window_loop episode_meta window_seconds step_seconds).

Lemma window_loop_exit fuel lines total_secs window_start acc :
  total_secs < window_start ->
  loop fuel lines total_secs window_start acc = Some acc.
Proof.
  intros Hlt. destruct fuel; simpl;
    destruct (Z.leb_spec window_start total_secs); try lia; reflexivity.
Qed.

Lemma window_loop_iter fuel lines total_secs window_start acc :
  window_start <= total_secs ->
  loop (S fuel) lines total_secs window_start acc =
  loop fuel lines total_secs (window_start + step_seconds)
    (match window_lines window_seconds lines window_start with
     | [] => acc
     | _ :: _ =>
         acc ++ [window_chunk episode_meta window_start
                   (window_lines window_seconds lines window_start)]
     end).
Proof.
  intros Hle. simpl.
  destruct (Z.leb_spec window_start total_secs); [reflexivity | lia].
Qed.

(** More fuel never changes a result that was reached. *)
Lemma window_loop_mono fuel : forall fuel' lines total_secs window_start acc out,
  (fuel <= fuel')%nat ->
  loop fuel lines total_secs window_start acc = Some out ->
  loop fuel' lines total_secs window_start acc = Some out.
Proof.
  induction fuel as [|fuel IH]; intros fuel' lines total ws acc out Hle Hrun.
  - destruct (Z.leb_spec ws total) as [Hc|Hc].
    + simpl in Hrun. destruct (Z.leb_spec ws total); [discriminate | lia].
    + rewrite window_loop_exit in Hrun by assumption.
      rewrite window_loop_exit by assumption. exact Hrun.
  - destruct (Z.leb_spec ws total) as [Hc|Hc].
    + destruct fuel' as [|fuel']; [lia|].
      rewrite window_loop_iter in * by assumption.
      apply IH; [lia | exact Hrun].
    + rewrite window_loop_exit in Hrun by assumption.
      rewrite window_loop_exit by assumption. exact Hrun.
Qed.

(** With a positive step the loop ends within [total_secs - window_start + 1]
    iterations. *)
Lemma window_loop_enough fuel : forall lines total_secs window_start acc,
  0 < step_seconds ->
  total_secs - window_start < Z.of_nat fuel ->
  exists out, loop fuel lines total_secs window_start acc = Some out.
Proof.
  induction fuel as [|fuel IH]; intros lines total ws acc Hstep Hfuel.
  - exists acc. apply window_loop_exit. lia.
  - destruct (Z.leb_spec ws total) as [Hc|Hc].
    + rewrite window_loop_iter by assumption. apply IH; [assumption | lia].
    + exists acc. apply window_loop_exit. assumption.
Qed.

(** With a step that is not positive the condition never fails. *)
Lemma window_loop_endless fuel : forall lines total_secs window_start acc,
  step_seconds <= 0 ->
  window_start <= total_secs ->
  loop fuel lines total_secs window_start acc = None.
Proof.
  induction fuel as [|fuel IH]; intros lines total ws acc Hstep Hc.
  - simpl. destruct (Z.leb_spec ws total); [reflexivity | lia].
  - rewrite window_loop_iter by assumption. apply IH; [assumption | lia].
Qed.

Lemma window_loop_inv fuel : forall lines total_secs k acc out,
  0 < step_seconds ->
  0 <= k ->
  Forall (window_made episode_meta window_seconds step_seconds lines) acc ->
  StronglySorted Z.lt (map start_seconds acc) ->
  Forall (fun c => start_seconds c < k * step_seconds) acc ->
  loop fuel lines total_secs (k * step_seconds) acc = Some out ->
  Forall (window_made episode_meta window_seconds step_seconds lines) out /\
  StronglySorted Z.lt (map start_seconds out).
Proof.
  induction fuel as [|fuel IH];
    intros lines total k acc out Hstep Hk Hmade Hsorted Hbelow Hrun.
  - simpl in Hrun. destruct (_ <=? _); [discriminate|].
    injection Hrun as <-. split; assumption.
  - destruct (Z.leb_spec (k * step_seconds) total) as [Hc|Hc].
    2:{ rewrite window_loop_exit in Hrun by assumption.
        injection Hrun as <-. split; assumption. }
    rewrite window_loop_iter in Hrun by assumption.
    replace (k * step_seconds + step_seconds) with ((k + 1) * step_seconds)
      in Hrun by lia.
    destruct (window_lines window_seconds lines (k * step_seconds))
      as [|l wl] eqn:Hwl.
    + apply IH with (k := k + 1) (acc := acc) (total_secs := total) (lines := lines);
        try assumption; try lia.
      eapply List.Forall_impl; [|exact Hbelow]. simpl. intros c Hb. lia.
    + apply IH with (k := k + 1) (total_secs := total) (lines := lines)
        (acc := acc ++ [window_chunk episode_meta (k * step_seconds) (l :: wl)]);
        try assumption; try lia.
      * apply Forall_app. split; [assumption|].
        constructor; [|constructor].
        exists k. rewrite Hwl. repeat split; [assumption | discriminate].
      * rewrite map_app. apply sorted_snoc; [assumption|].
        apply List.Forall_map. exact Hbelow.
      * apply Forall_app. split.
        { eapply List.Forall_impl; [|exact Hbelow]. simpl. intros c Hb. lia. }
        { constructor; [simpl; lia | constructor]. }
Qed.

End WindowLoopFacts.

(** [chunk_by_time_window] returns whenever the step is positive. *)
Lemma chunk_by_time_window_returns episode_meta window_seconds step_seconds
    transcript :
  0 < step_seconds ->
  exists chunks,
    chunk_by_time_window episode_meta window_seconds step_seconds transcript
    = Returns chunks.
Proof.
  intros Hstep. unfold chunk_by_time_window.
  destruct (List.filter has_line transcript) as [|l lines]; [eauto|].
  set (total := entry_sec _).
  destruct (window_loop_enough episode_meta window_seconds step_seconds
              (S (Z.to_nat total)) (l :: lines) total 0 [] Hstep) as [out ->];
    [lia | eauto].
Qed.

(** [Diverges] is only returned for a loop that no fuel finishes. *)
Lemma chunk_by_time_window_diverges episode_meta window_seconds step_seconds
    transcript :
  chunk_by_time_window episode_meta window_seconds step_seconds transcript
  = Diverges ->
  forall fuel,
    window_loop episode_meta window_seconds step_seconds fuel
      (List.filter has_line transcript)
      (entry_sec (List.last (List.filter has_line transcript)
                            (Item None None None None)))
      0 []
    = None.
Proof.
  unfold chunk_by_time_window.
  destruct (List.filter has_line transcript) as [|l lines]; [discriminate|].
  set (total := entry_sec _).
  destruct (Z.ltb_spec 0 step_seconds) as [Hstep|Hstep].
  - destruct (window_loop_enough episode_meta window_seconds step_seconds
                (S (Z.to_nat total)) (l :: lines) total 0 [] Hstep) as [out ->];
      [lia | discriminate].
  - intros Hdiv fuel.
    destruct (Z.leb_spec 0 total) as [Htot|Htot].
    + apply window_loop_endless; assumption.
    + rewrite window_loop_exit in Hdiv by assumption. discriminate.
Qed.

Lemma sorted_lt_NoDup (l : list Z) : StronglySorted Z.lt l -> List.NoDup l.
Proof.
  induction 1 as [|a l Hs IH Hall]; constructor; [|assumption].
  intros Hin. rewrite List.Forall_forall in Hall.
  specialize (Hall a Hin). lia.
Qed.

Lemma NoDup_map_inj {A B} (f : A -> B) (l : list A) :
  (forall x y, f x = f y -> x = y) -> List.NoDup l -> List.NoDup (map f l).
Proof.
  intros Hinj. induction 1 as [|a l Hnin Hnd IH]; simpl; constructor.
  - intros Hin. apply in_map_iff in Hin as [y [Hy Hin]].
    apply Hinj in Hy. subst. contradiction.
  - assumption.
Qed.

(* ------------------------------------------------------------------ *)
(** ** Window chunker *)

(** C10. For every document and every positive window length and positive
    step, the window chunker returns; every chunk it emits starts at a
    non-negative integer multiple of the step; the starts are strictly
    increasing along the emitted list; and the window labels of the
    document are pairwise distinct. *)
Theorem window_starts_multiples_increasing episode_meta window_seconds
    step_seconds transcript :
  0 < window_seconds ->
  0 < step_seconds ->
  exists chunks,
    chunk_by_time_window episode_meta window_seconds step_seconds transcript
    = Returns chunks /\
    Forall (fun c => exists k, 0 <= k /\ start_seconds c = k * step_seconds)
           chunks /\
    StronglySorted Z.lt (map start_seconds chunks) /\
    List.NoDup (map section chunks).
Proof.
  intros _ Hstep.
  destruct (chunk_by_time_window_returns episode_meta window_seconds
              step_seconds transcript Hstep) as [chunks Hrun].
  exists chunks. split; [exact Hrun|].
  assert (Hinv : Forall (window_made episode_meta window_seconds step_seconds
                           (List.filter has_line transcript)) chunks /\
                 StronglySorted Z.lt (map start_seconds chunks)).
  { unfold chunk_by_time_window in Hrun.
    destruct (List.filter has_line transcript) as [|l lines] eqn:Hlines.
    - injection Hrun as <-. split; constructor.
    - destruct (window_loop _ _ _ _ _ _ _ _) as [out|] eqn:Hloop;
        [|discriminate].
      injection Hrun as ->.
      eapply (window_loop_inv episode_meta window_seconds step_seconds
                _ _ _ 0 [] chunks Hstep); [lia | constructor ..| exact Hloop]. }
  destruct Hinv as [Hmade Hsorted].
  split; [|split; [exact Hsorted|]].
  - eapply List.Forall_impl; [|exact Hmade].
    intros c (k & Hk & -> & _). exists k. split; [assumption | reflexivity].
  - replace (map section chunks)
      with (map (fun z => "~" +:+ seconds_to_timestamp z)
                (map start_seconds chunks)).
    + apply NoDup_map_inj; [|apply sorted_lt_NoDup; exact Hsorted].
      intros x y Hxy. injection Hxy as Hxy.
      apply seconds_to_timestamp_inj. exact Hxy.
    + rewrite map_map. apply map_ext_Forall.
      eapply List.Forall_impl; [|exact Hmade].
      intros c (k & _ & -> & _). reflexivity.
Qed.

Lemma window_starts_multiples_increasing_witness :
  exists chunks,
    chunk_by_time_window Ex.meta 60 30 Ex.four_lines = Returns chunks /\
    Forall (fun c => exists k, 0 <= k /\ start_seconds c = k * 30) chunks /\
    StronglySorted Z.lt (map start_seconds chunks) /\
    List.NoDup (map section chunks).
Proof.
  apply (window_starts_multiples_increasing Ex.meta 60 30 Ex.four_lines); lia.
Defined.

(** C1 (as the code has it). For a transcript whose spoken lines have the
    timestamps 10, 40, 70 and 100, a window of 60 seconds and a step of 30
    seconds give chunks exactly at the window starts 0, 30, 60 and 90, and
    each window holds every line of its 60 seconds: window 0 the lines at
    10 and 40, window 30 the lines at 40 and 70, window 60 the lines at 70
    and 100, window 90 the line at 100. *)
Theorem window_example_membership episode_meta transcript l1 l2 l3 l4 :
  List.filter has_line transcript = [l1; l2; l3; l4] ->
  entry_sec l1 = 10 -> entry_sec l2 = 40 ->
  entry_sec l3 = 70 -> entry_sec l4 = 100 ->
  chunk_by_time_window episode_meta 60 30 transcript
  = Returns [ window_chunk episode_meta 0 [l1; l2];
              window_chunk episode_meta 30 [l2; l3];
              window_chunk episode_meta 60 [l3; l4];
              window_chunk episode_meta 90 [l4] ].
Proof.
  intros Hlines H1 H2 H3 H4.
  unfold chunk_by_time_window. rewrite Hlines.
  cbn [List.last]. rewrite H4.
  assert (Hw : forall ws,
            window_lines 60 [l1; l2; l3; l4] ws
            = map snd
                (List.filter (fun s => (ws <=? fst s) && (fst s <? ws + 60))
                   [(10, l1); (40, l2); (70, l3); (100, l4)])).
  { intros ws. unfold window_lines. cbn [List.filter map fst snd].
    rewrite H1, H2, H3, H4.
    destruct (_ && _), (_ && _), (_ && _), (_ && _); reflexivity. }
  replace (S (Z.to_nat 100)) with (4 + 97)%nat by reflexivity.
  cbn [Nat.add].
  rewrite window_loop_iter by lia. rewrite Hw.
  rewrite window_loop_iter by lia. rewrite Hw.
  rewrite window_loop_iter by lia. rewrite Hw.
  rewrite window_loop_iter by lia. rewrite Hw.
  rewrite window_loop_exit by lia.
  reflexivity.
Qed.

Lemma window_example_membership_witness :
  chunk_by_time_window Ex.meta 60 30 Ex.four_lines
  = Returns [ window_chunk Ex.meta 0 [Ex.l10; Ex.l40];
              window_chunk Ex.meta 30 [Ex.l40; Ex.l70];
              window_chunk Ex.meta 60 [Ex.l70; Ex.l100];
              window_chunk Ex.meta 90 [Ex.l100] ].
Proof.
  apply (window_example_membership Ex.meta Ex.four_lines
           Ex.l10 Ex.l40 Ex.l70 Ex.l100); reflexivity.
Defined.

(** C1 as the spec words it, with window 30 holding only the line at 40 and
    window 60 only the line at 70, is not what the chunker returns. *)
Lemma window_example_spec_membership_fails :
  chunk_by_time_window Ex.meta 60 30 Ex.four_lines
  <> Returns [ window_chunk Ex.meta 0 [Ex.l10; Ex.l40];
               window_chunk Ex.meta 30 [Ex.l40];
               window_chunk Ex.meta 60 [Ex.l70];
               window_chunk Ex.meta 90 [Ex.l100] ].
Proof. vm_compute. intros H. discriminate H. Qed.

Example window_example_texts :
  match chunk_by_time_window Ex.meta 60 30 Ex.four_lines with
  | Returns chunks => map (fun c => (start_seconds c, text c)) chunks
  | _ => []
  end = [(0, "a b"); (30, "b c"); (60, "c d"); (90, "d")].
Proof. reflexivity. Qed.

(* ------------------------------------------------------------------ *)
(** ** Header chunker *)

Lemma append_empty (a b : string) : a +:+ b = "" -> a = "" /\ b = "".
Proof. destruct a; simpl; [auto | discriminate]. Qed.

Lemma join_empty (sep p : string) (ps : list string) :
  sep <> "" -> (Py.join sep (p :: ps) = "" <-> ps = [] /\ p = "").
Proof.
  intros Hsep. destruct ps as [|q ps]; simpl.
  - split; [auto | intros [_ ->]; reflexivity].
  - split.
    + intros H. apply append_empty in H as [_ H].
      apply append_empty in H as [H _]. contradiction.
    + intros [H _]. discriminate.
Qed.

Lemma text_part_empty (e : item) :
  text_part e = "" <-> entry_speaker e = "" /\ entry_line e = "".
Proof.
  unfold text_part. destruct (entry_speaker e) as [|c sp]; simpl.
  - split; [auto | intros [_ H]; exact H].
  - split; [discriminate | intros [H _]; discriminate].
Qed.

Section HeaderFacts.

Variable clip_lookup : gmap string clip_info.
Variable episode_meta : yaml_data.
Variable transcript : list item.

Local Abbreviation step := (header_step clip_lookup episode_meta).
Local Abbreviation final := (fold_left step transcript header_init).

(** A property [Q] holds of every emitted chunk when [header_chunk]
    establishes it on every state with accumulated lines that satisfies a
    loop invariant [I]. *)
Lemma chunks_invariant (I : header_state -> Prop) (Q : chunk -> Prop) :
  I header_init ->
  (forall st it, In it transcript -> I st -> I (step st it)) ->
  (forall st, I st -> current_lines st <> [] ->
              Q (header_chunk clip_lookup episode_meta st)) ->
  Forall Q (chunk_by_headers clip_lookup episode_meta transcript).
Proof.
  intros Hinit Hstep Hq. unfold chunk_by_headers.
  assert (Hflush : forall st, I st -> Forall Q (chunks st) ->
            Forall Q (flush_chunk clip_lookup episode_meta st)).
  { intros st Hst Hall. unfold flush_chunk.
    destruct (current_lines st) as [|e rest] eqn:Hl; [exact Hall|].
    apply Forall_app. split; [exact Hall|].
    constructor; [|constructor]. apply Hq; [exact Hst|].
    rewrite Hl. discriminate. }
  assert (Hall : I final /\ Forall Q (chunks final)).
  { apply (fold_left_invariant
             (fun st => I st /\ Forall Q (chunks st))).
    - split; [exact Hinit | constructor].
    - intros st it Hin [Hst Hch]. split; [apply Hstep; assumption|].
      unfold header_step.
      destruct (header it) as [h|]; simpl.
      + apply Hflush; assumption.
      + destruct (line it); exact Hch. }
  destruct Hall as [Hfin Hch]. apply Hflush; assumption.
Qed.

Lemma start_inv_step st it :
  start_inv clip_lookup st -> start_inv clip_lookup (step st it).
Proof.
  intros Hst. unfold header_step, start_inv.
  destruct (header it) as [h|]; simpl.
  - intros Hnone. rewrite Hnone. reflexivity.
  - destruct (line it); exact Hst.
Qed.

Lemma lines_inv_step st it :
  In it transcript ->
  lines_inv transcript st -> lines_inv transcript (step st it).
Proof.
  intros Hin Hst. unfold header_step, lines_inv.
  destruct (header it) as [h|] eqn:Hh; simpl; [constructor|].
  destruct (line it) as [t|] eqn:Ht; [|exact Hst].
  simpl. apply Forall_app. split; [exact Hst|].
  constructor; [|constructor].
  repeat split; [exact Hin | exact Hh | rewrite Ht; discriminate].
Qed.

End HeaderFacts.

(** C2 (as the code has it). For every document, an emitted header chunk
    whose section label has no entry in the clip lookup has start-seconds 0
    and the timestamp of second 0, and its deep link is the base video URL
    of the document followed by that offset: the timestamps of the
    accumulated lines are not read. *)
Theorem header_fallback_start_is_zero clip_lookup episode_meta transcript c :
  In c (chunk_by_headers clip_lookup episode_meta transcript) ->
  clip_lookup !! section c = None ->
  start_seconds c = 0 /\
  timestamp c = seconds_to_timestamp 0 /\
  deep_link c =
    "https://www.youtube.com/watch?v=" +:+ meta_video_id episode_meta
      +:+ "&t=" +:+ Py.str (start_seconds c).
Proof.
  intros Hin.
  assert (Hall : Forall (fun c =>
            clip_lookup !! section c = None ->
            start_seconds c = 0 /\
            timestamp c = seconds_to_timestamp 0 /\
            deep_link c =
              "https://www.youtube.com/watch?v=" +:+ meta_video_id episode_meta
                +:+ "&t=" +:+ Py.str (start_seconds c))
          (chunk_by_headers clip_lookup episode_meta transcript)).
  { apply chunks_invariant with (I := start_inv clip_lookup).
    - intros _. reflexivity.
    - intros st it _. apply start_inv_step.
    - intros st Hst _ Hnone. unfold header_chunk in *. simpl in *.
      rewrite Hnone. rewrite (Hst Hnone). repeat split. }
  rewrite List.Forall_forall in Hall. exact (Hall c Hin).
Qed.

Lemma header_fallback_start_is_zero_witness :
  let c := header_chunk ∅ Ex.meta
             (HeaderState [] "Topic" [Ex.spoken 42 "hello"; Ex.spoken 50 "world"] 0) in
  start_seconds c = 0 /\
  timestamp c = seconds_to_timestamp 0 /\
  deep_link c =
    "https://www.youtube.com/watch?v=" +:+ meta_video_id Ex.meta
      +:+ "&t=" +:+ Py.str (start_seconds c).
Proof.
  intros c.
  apply (header_fallback_start_is_zero ∅ Ex.meta Ex.topic_at_42 c).
  - left. reflexivity.
  - reflexivity.
Defined.

(** C2 as the spec words it fails: the section "Topic" has no clip and its
    first line is at second 42, yet the chunk starts at 0 and links to
    offset 0. *)
Lemma header_fallback_ignores_first_line :
  exists c,
    chunk_by_headers ∅ Ex.meta Ex.topic_at_42 = [c] /\
    (∅ : gmap string clip_info) !! section c = None /\
    start_seconds c <> 42 /\
    deep_link c <> "https://www.youtube.com/watch?v=V1&t=42".
Proof.
  eexists. split; [reflexivity|]. vm_compute.
  repeat split; intros H; discriminate H.
Qed.

(** C8 (as the code has it). For every document, every chunk that the
    header chunker emits is built from at least one accumulated spoken
    line of the document, and its text is empty exactly when it is built
    from a single line that has no speaker and whose text is empty once
    stripped. *)
Theorem header_text_empty_iff_blank_line clip_lookup episode_meta transcript c :
  In c (chunk_by_headers clip_lookup episode_meta transcript) ->
  exists e rest,
    Forall (fun it => In it transcript /\ header it = None /\ line it <> None)
           (e :: rest) /\
    text c = combined_text (e :: rest) /\
    (text c = "" <-> rest = [] /\ entry_speaker e = "" /\ entry_line e = "").
Proof.
  intros Hin.
  assert (Hall : Forall (fun c =>
            exists e rest,
              Forall (fun it => In it transcript /\ header it = None
                                /\ line it <> None) (e :: rest) /\
              text c = combined_text (e :: rest) /\
              (text c = "" <->
               rest = [] /\ entry_speaker e = "" /\ entry_line e = ""))
          (chunk_by_headers clip_lookup episode_meta transcript)).
  { apply chunks_invariant with (I := lines_inv transcript).
    - constructor.
    - intros st it. apply lines_inv_step.
    - intros st Hst Hne. unfold header_chunk. simpl.
      unfold lines_inv in Hst.
      destruct (current_lines st) as [|e rest]; [contradiction|].
      exists e, rest. split; [exact Hst|]. split; [reflexivity|].
      unfold combined_text, text_parts. simpl map.
      rewrite join_empty by discriminate.
      rewrite text_part_empty.
      split.
      + intros [Hm H]. split; [|exact H].
        destruct rest; [reflexivity | discriminate].
      + intros [-> H]. split; [reflexivity | exact H]. }
  rewrite List.Forall_forall in Hall. exact (Hall c Hin).
Qed.

Lemma header_text_empty_iff_blank_line_witness :
  exists e rest,
    Forall (fun it => In it Ex.blank_section /\ header it = None /\ line it <> None)
           (e :: rest) /\
    text (header_chunk ∅ Ex.meta (HeaderState [] "Topic" [Ex.spoken 7 "  "] 0))
    = combined_text (e :: rest) /\
    (text (header_chunk ∅ Ex.meta (HeaderState [] "Topic" [Ex.spoken 7 "  "] 0)) = ""
     <-> rest = [] /\ entry_speaker e = "" /\ entry_line e = "").
Proof.
  apply (header_text_empty_iff_blank_line ∅ Ex.meta Ex.blank_section).
  left. reflexivity.
Defined.

(** C8 as the spec words it fails: a section whose only line is blank and
    has no speaker is emitted with an empty text. *)
Lemma header_emits_empty_text :
  exists c,
    In c (chunk_by_headers ∅ Ex.meta Ex.blank_section) /\ text c = "".
Proof. eexists. split; [left; reflexivity | reflexivity]. Qed.

(* ------------------------------------------------------------------ *)
(** ** Timestamps and the clip lookup *)

Lemma build_clip_lookup_last (clips : list clip) (c : clip) :
  build_clip_lookup (Some (clips ++ [c])) !! default "" (name c)
  = Some (clip_entry c).
Proof.
  unfold build_clip_lookup. simpl. rewrite fold_left_app. simpl.
  apply lookup_insert_eq.
Qed.

(** C7 (as the code has it). [seconds_to_timestamp] writes the floor of
    seconds / 60, a colon, and seconds mod 60 as two digits, so 150 gives
    "2:30" and 0 gives "0:00"; a clip without [startOffset] is entered in
    the lookup with start 0 and timestamp "0:00". A negative value is not
    replaced by 0: the same formula applies to it. *)
Theorem seconds_to_timestamp_format :
  seconds_to_timestamp 150 = "2:30" /\
  seconds_to_timestamp 0 = "0:00" /\
  (forall seconds,
     seconds_to_timestamp seconds
     = Py.str (seconds / 60) +:+ ":" +:+ two_digits (seconds mod 60)) /\
  (forall clips clip_name end_offset clip_url,
     exists info,
       build_clip_lookup
         (Some (clips ++ [Clip clip_name None end_offset clip_url]))
         !! default "" clip_name
       = Some info /\
       ci_start_seconds info = 0 /\ ci_timestamp info = "0:00").
Proof.
  split; [reflexivity|]. split; [reflexivity|]. split.
  - intros seconds. unfold seconds_to_timestamp. do 2 f_equal.
    pose proof (Z.mod_pos_bound seconds 60 ltac:(lia)) as Hr.
    revert Hr. generalize (seconds mod 60). intros r Hr.
    rewrite <- (Z2Nat.id r) by lia.
    assert (Hn : (Z.to_nat r < 60)%nat) by lia.
    revert Hn. generalize (Z.to_nat r). clear. intros n Hn.
    do 60 (destruct n as [|n]; [vm_compute; reflexivity|]).
    lia.
  - intros clips clip_name end_offset clip_url.
    exists (clip_entry (Clip clip_name None end_offset clip_url)).
    split; [|split; reflexivity].
    apply (build_clip_lookup_last clips
             (Clip clip_name None end_offset clip_url)).
Qed.

(** C7 as the spec words it fails on a negative value: -5 is written
    "-1:55", not as second 0. *)
Lemma seconds_to_timestamp_negative :
  seconds_to_timestamp (-5) = "-1:55" /\
  seconds_to_timestamp (-5) <> seconds_to_timestamp 0.
Proof. split; [reflexivity | vm_compute; intros H; discriminate H]. Qed.

(* ------------------------------------------------------------------ *)
(** ** Episode loader *)

(** [parse_md_file] raises exactly when reading the front matter raises;
    otherwise it returns, with no chunk when there is no transcript. *)
Lemma parse_md_file_outcome (f : md_file) :
  match split_frontmatter f with
  | inl e => parse_md_file f = Raises e
  | inr data =>
      exists segments,
        parse_md_file f = Returns segments /\
        (default [] (transcript data) = [] -> segments = [])
  end.
Proof.
  unfold parse_md_file. destruct (split_frontmatter f) as [e|data];
    [reflexivity|].
  destruct (default [] (transcript data)) as [|it items] eqn:Ht.
  - exists []. split; reflexivity.
  - destruct (chunk_by_time_window_returns data 60 30 (it :: items))
      as [window_chunks ->]; [lia|].
    eexists. split; [reflexivity | discriminate].
Qed.

Lemma load_loop_closed_form (files : list md_file) : forall st,
  fold_left load_step files (Returns st)
  = Returns {| all_segments := all_segments st ++ flat_map segments_of files;
               failed := failed st
                         ++ map file_name (List.filter raised files) |}.
Proof.
  induction files as [|f files IH]; intros st; simpl.
  - rewrite !app_nil_r. destruct st; reflexivity.
  - pose proof (parse_md_file_outcome f) as Hf.
    unfold segments_of, raised.
    destruct (split_frontmatter f) as [e|data].
    + rewrite Hf. rewrite IH. simpl. rewrite <- app_assoc. reflexivity.
    + destruct Hf as (segments & -> & _). rewrite IH. simpl.
      rewrite <- app_assoc. reflexivity.
Qed.

(** C4 (as the code has it). For every collection with at least one file
    to load, the loader returns the chunks of all files in order, a file
    that fails to parse or has no transcript contributing none, and it
    records the names of the files that failed to parse, and only those,
    in its failure list; the list is not part of the returned value. A file
    without transcript content is skipped without being recorded. *)
Theorem load_skips_and_records_parse_failures (found : list md_file) :
  kept_files found <> [] ->
  exists st,
    load_run (Some found) = Returns st /\
    load_all_episodes (Some found) = Returns (all_segments st) /\
    all_segments st = flat_map segments_of (kept_files found) /\
    failed st = map file_name (List.filter raised (kept_files found)) /\
    (forall f e, split_frontmatter f = inl e ->
                 raised f = true /\ segments_of f = []) /\
    (forall f data, split_frontmatter f = inr data ->
                    default [] (transcript data) = [] ->
                    raised f = false /\ segments_of f = []).
Proof.
  intros Hne. unfold load_all_episodes, load_run. fold (kept_files found).
  destruct (kept_files found) as [|f files] eqn:Hk; [contradiction|].
  rewrite load_loop_closed_form. eexists. split; [reflexivity|].
  simpl all_segments. simpl failed.
  split; [reflexivity|]. split; [reflexivity|]. split; [reflexivity|].
  split.
  - intros g e Hg. pose proof (parse_md_file_outcome g) as Hp.
    unfold raised, segments_of. rewrite Hg in *. rewrite Hp.
    split; reflexivity.
  - intros g data Hg Hempty. pose proof (parse_md_file_outcome g) as Hp.
    unfold raised, segments_of. rewrite Hg in *.
    destruct Hp as (segments & -> & Hnil).
    split; [reflexivity | apply Hnil; exact Hempty].
Qed.

Lemma load_skips_and_records_parse_failures_witness :
  exists st,
    load_run (Some [Ex.good_file; Ex.empty_file; Ex.broken_file])
    = Returns st /\
    load_all_episodes (Some [Ex.good_file; Ex.empty_file; Ex.broken_file])
    = Returns (all_segments st) /\
    all_segments st
    = flat_map segments_of
        (kept_files [Ex.good_file; Ex.empty_file; Ex.broken_file]) /\
    failed st
    = map file_name
        (List.filter raised
           (kept_files [Ex.good_file; Ex.empty_file; Ex.broken_file])) /\
    (forall f e, split_frontmatter f = inl e ->
                 raised f = true /\ segments_of f = []) /\
    (forall f data, split_frontmatter f = inr data ->
                    default [] (transcript data) = [] ->
                    raised f = false /\ segments_of f = []).
Proof.
  apply (load_skips_and_records_parse_failures
           [Ex.good_file; Ex.empty_file; Ex.broken_file]).
  discriminate.
Defined.

(** C4 as the spec words it fails: a file without transcript content is
    skipped, but its name is not in the failure list. *)
Lemma load_empty_transcript_not_recorded :
  exists data st,
    split_frontmatter Ex.empty_file = inr data /\
    transcript data = None /\
    load_run (Some [Ex.good_file; Ex.empty_file; Ex.broken_file])
    = Returns st /\
    failed st = ["c-broken.md"] /\
    ~ In (file_name Ex.empty_file) (failed st).
Proof.
  eexists. eexists. split; [reflexivity|]. split; [reflexivity|].
  split; [vm_compute; reflexivity|]. split; [reflexivity|].
  simpl. intros [H|[]]. discriminate H.
Qed.

(* ------------------------------------------------------------------ *)
(** ** Deduplication *)

Section Dedup.

Variable min_gap_seconds : Z.

Local Abbreviation loop := (dedup_loop min_gap_seconds).

(** The chunks kept from [results] when [seen] is already recorded. *)
Local Abbreviation kept_after seen results := (loop results seen []).

Lemma dedup_loop_acc results : forall seen unique,
  loop results seen unique = unique ++ kept_after seen results.
Proof.
  induction results as [|r rest IH]; intros seen unique; simpl.
  - now rewrite app_nil_r.
  - destruct (is_duplicate _ _ _ _).
    + apply IH.
    + rewrite IH. rewrite (IH _ [r]). now rewrite app_assoc.
Qed.

Lemma kept_after_cons seen r rest :
  kept_after seen (r :: rest) =
  if is_duplicate seen (video_id r) (start_seconds r) min_gap_seconds
  then kept_after seen rest
  else r :: kept_after (seen ++ [(video_id r, start_seconds r)]) rest.
Proof.
  simpl. destruct (is_duplicate _ _ _ _); [reflexivity|].
  now rewrite dedup_loop_acc.
Qed.

Lemma kept_after_idempotent results : forall seen,
  kept_after seen (kept_after seen results) = kept_after seen results.
Proof.
  induction results as [|r rest IH]; intros seen; [reflexivity|].
  rewrite kept_after_cons.
  destruct (is_duplicate _ _ _ _) eqn:Hdup.
  - apply IH.
  - rewrite kept_after_cons, Hdup. f_equal. apply IH.
Qed.

Lemma kept_after_sublist results : forall seen,
  kept_after seen results `sublist_of` results.
Proof.
  induction results as [|r rest IH]; intros seen.
  - constructor.
  - rewrite kept_after_cons. destruct (is_duplicate _ _ _ _).
    + apply sublist_cons, IH.
    + apply sublist_skip, IH.
Qed.

Lemma dedup_loop_prefix xs ys : forall seen unique,
  loop xs seen unique `prefix_of` loop (xs ++ ys) seen unique.
Proof.
  induction xs as [|r rest IH]; intros seen unique; simpl.
  - rewrite (dedup_loop_acc ys). apply prefix_app_r. reflexivity.
  - destruct (is_duplicate _ _ _ _); apply IH.
Qed.

End Dedup.

(** C5. Deduplication is idempotent: for every list of results and every
    minimal gap, running [deduplicate_results] on its own output gives
    that output again. *)
Theorem deduplicate_results_idempotent results min_gap_seconds :
  deduplicate_results (deduplicate_results results min_gap_seconds)
                      min_gap_seconds
  = deduplicate_results results min_gap_seconds.
Proof. apply kept_after_idempotent. Qed.

(** C6. For every ranked list and every minimal gap, the output of
    [deduplicate_results] is a subsequence of the input, so the kept
    elements stand in their input order; and what is kept from a prefix of
    the input is kept, at the same places, whatever follows: a later
    candidate never displaces an accepted one. *)
Theorem deduplicate_results_subsequence results min_gap_seconds :
  deduplicate_results results min_gap_seconds `sublist_of` results /\
  (forall later,
     deduplicate_results results min_gap_seconds
     `prefix_of` deduplicate_results (results ++ later) min_gap_seconds).
Proof.
  split.
  - apply kept_after_sublist.
  - intros later. apply dedup_loop_prefix.
Qed.

(** C9. For every minimal gap, [deduplicate_results] keeps the first
    element of a non-empty input, so its output is empty exactly when its
    input is; on an input of length one the output is the input. *)
Theorem deduplicate_results_keeps_first min_gap_seconds :
  (forall r rest, exists kept,
     deduplicate_results (r :: rest) min_gap_seconds = r :: kept) /\
  (forall results,
     deduplicate_results results min_gap_seconds = [] <-> results = []) /\
  (forall r, deduplicate_results [r] min_gap_seconds = [r]).
Proof.
  assert (Hfirst : forall r rest, exists kept,
            deduplicate_results (r :: rest) min_gap_seconds = r :: kept).
  { intros r rest. unfold deduplicate_results.
    rewrite kept_after_cons. simpl. eauto. }
  split; [exact Hfirst|]. split.
  - intros [|r rest]; split; try reflexivity; try discriminate.
    destruct (Hfirst r rest) as [kept ->]. discriminate.
  - intros r. reflexivity.
Qed.

(* ------------------------------------------------------------------ *)
(** ** Retrieval *)

Section RetrievalFacts.

Variable index_search :
  string -> gmap string string -> gmap string Z -> Z -> list chunk.

(** What [retrieve] does for any [top_k]. *)
Lemma retrieve_run top_k question video_id season :
  run (retrieve index_search top_k question video_id season)
  = (Py.slice_to
       (deduplicate_results
          (interleave
             (index_search question (kind_filter video_id season "header")
                           boost_dict top_k)
             (index_search question (kind_filter video_id season "window")
                           boost_dict top_k))
          30)
       top_k,
     [ IndexCall question (kind_filter video_id season "header")
                 boost_dict top_k;
       IndexCall question (kind_filter video_id season "window")
                 boost_dict top_k ]).
Proof. reflexivity. Qed.

End RetrievalFacts.

(** C3 (as the code has it). [retrieve] has no guard on [top_k]: for every
    question, scope filter and [top_k <= 0] it queries the index twice,
    once per kind and each time asking for [top_k] results; for
    [top_k = 0] it then returns the empty list, and for [top_k < 0] the
    deduplicated interleaving of the two answers without its last
    [-top_k] entries. *)
Theorem retrieve_nonpositive_top_k index_search top_k question video_id season :
  top_k <= 0 ->
  let header_results :=
    index_search question (kind_filter video_id season "header")
                 boost_dict top_k in
  let window_results :=
    index_search question (kind_filter video_id season "window")
                 boost_dict top_k in
  let unique :=
    deduplicate_results (interleave header_results window_results) 30 in
  let out := run (retrieve index_search top_k question video_id season) in
  snd out
  = [ IndexCall question (kind_filter video_id season "header")
                boost_dict top_k;
      IndexCall question (kind_filter video_id season "window")
                boost_dict top_k ] /\
  (top_k = 0 -> fst out = []) /\
  (top_k < 0 ->
   fst out = firstn (length unique - Z.to_nat (- top_k)) unique).
Proof.
  intros Hk. cbv zeta. rewrite retrieve_run. cbn [fst snd].
  split; [reflexivity|]. split.
  - intros ->. reflexivity.
  - intros Hneg. unfold Py.slice_to.
    destruct (Z.leb_spec 0 top_k) as [H0|H0]; [lia | reflexivity].
Qed.

Lemma retrieve_nonpositive_top_k_witness :
  let out := run (retrieve (fun _ _ _ _ => []) 0 "what is a window?" None None) in
  snd out
  = [ IndexCall "what is a window?" (kind_filter None None "header")
                boost_dict 0;
      IndexCall "what is a window?" (kind_filter None None "window")
                boost_dict 0 ] /\
  (0 = 0 -> fst out = []) /\
  (0 < 0 ->
   fst out = firstn (length (deduplicate_results (interleave [] []) 30)
                     - Z.to_nat (- 0))
                    (deduplicate_results (interleave [] []) 30)).
Proof.
  apply (retrieve_nonpositive_top_k (fun _ _ _ _ => []) 0
           "what is a window?" None None).
  lia.
Defined.

(** C3 as the spec words it fails: with [top_k = 0] the index is queried
    all the same. *)
Lemma retrieve_zero_top_k_queries_index :
  let out := run (retrieve (fun _ _ _ _ => []) 0 "what is a window?" None None) in
  fst out = [] /\ length (snd out) = 2%nat /\ snd out <> [].
Proof. cbv zeta. rewrite retrieve_run. repeat split. discriminate. Qed.

(** With a negative [top_k] the answer need not be empty: it depends on
    what the index returns for a negative number of results. *)
Example retrieve_negative_top_k_example :
  map start_seconds
      (fst (run (retrieve Ex.generous_index (-1) "topic" None None)))
  = [2139].
Proof. vm_compute. reflexivity. Qed.

Example deduplicate_results_example :
  map start_seconds
      (deduplicate_results
         (interleave
            [Ex.result_at HeaderChunk 2139; Ex.result_at HeaderChunk 2160]
            [Ex.result_at WindowChunk 2150; Ex.result_at WindowChunk 2400])
         30)
  = [2139; 2400].
Proof. vm_compute. reflexivity. Qed.

(* ================================================================== *)
(** * Further properties *)

(* ------------------------------------------------------------------ *)
(** ** Deduplication: what is kept and what is dropped *)

Section DedupMore.

Variable min_gap_seconds : Z.

Local Abbreviation kept_after seen results :=
  (dedup_loop min_gap_seconds results seen []).

Local Abbreviation dup seen r :=
  (is_duplicate seen (video_id r) (start_seconds r) min_gap_seconds).

Lemma is_duplicate_app seen seen' vid start :
  is_duplicate (seen ++ seen') vid start min_gap_seconds
  = is_duplicate seen vid start min_gap_seconds
    || is_duplicate seen' vid start min_gap_seconds.
Proof. unfold is_duplicate. apply existsb_app. Qed.

Lemma is_duplicate_one k r :
  dup [(video_id k, start_seconds k)] r = false ->
  far_apart min_gap_seconds k r.
Proof.
  unfold is_duplicate, far_apart. simpl. rewrite orb_false_r.
  intros H Hvid. rewrite Hvid, String.eqb_refl in H. simpl in H.
  apply Z.ltb_ge in H. exact H.
Qed.

Lemma is_duplicate_one_true k r :
  dup [(video_id k, start_seconds k)] r = true ->
  stands_for min_gap_seconds k r.
Proof.
  unfold is_duplicate, stands_for. simpl. rewrite orb_false_r.
  intros H. apply andb_true_iff in H as [Hv Hd].
  apply String.eqb_eq in Hv. apply Z.ltb_lt in Hd. split; assumption.
Qed.

Lemma kept_after_unfold seen r rest :
  kept_after seen (r :: rest) =
  if dup seen r then kept_after seen rest
  else r :: kept_after (seen ++ [(video_id r, start_seconds r)]) rest.
Proof. apply kept_after_cons. Qed.

Lemma kept_after_separated results : forall seen,
  Forall (fun r => dup seen r = false) (kept_after seen results) /\
  StronglySorted (far_apart min_gap_seconds) (kept_after seen results).
Proof.
  induction results as [|r rest IH]; intros seen.
  - split; constructor.
  - rewrite kept_after_unfold. destruct (dup seen r) eqn:Hdup; [apply IH|].
    destruct (IH (seen ++ [(video_id r, start_seconds r)])) as [Hnd Hs].
    assert (Hboth : Forall (fun x => dup seen x = false
                                     /\ far_apart min_gap_seconds r x)
                      (kept_after (seen ++ [(video_id r, start_seconds r)]) rest)).
    { eapply List.Forall_impl; [|exact Hnd]. intros x Hx. simpl in Hx.
      rewrite is_duplicate_app in Hx. apply orb_false_iff in Hx as [H1 H2].
      split; [exact H1 | apply is_duplicate_one; exact H2]. }
    split.
    + constructor; [exact Hdup|].
      eapply List.Forall_impl; [|exact Hboth]. intros x [H _]. exact H.
    + constructor; [exact Hs|].
      eapply List.Forall_impl; [|exact Hboth]. intros x [_ H]. exact H.
Qed.

Lemma kept_after_covers results : forall seen r,
  In r results ->
  In r (kept_after seen results) \/
  dup seen r = true \/
  exists k, In k (kept_after seen results) /\ stands_for min_gap_seconds k r.
Proof.
  induction results as [|h rest IH]; intros seen r Hin; [destruct Hin|].
  rewrite kept_after_unfold. destruct Hin as [<-|Hin].
  - destruct (dup seen h) eqn:Hdup; [right; left; reflexivity|].
    left. left. reflexivity.
  - destruct (dup seen h) eqn:Hdup; [apply IH; exact Hin|].
    destruct (IH (seen ++ [(video_id h, start_seconds h)]) r Hin)
      as [Hk|[Hd|(k & Hk & Hclose)]].
    + left. right. exact Hk.
    + rewrite is_duplicate_app in Hd. apply orb_true_iff in Hd as [Hd|Hd].
      * right. left. exact Hd.
      * right. right. exists h. split; [left; reflexivity|].
        apply is_duplicate_one_true. exact Hd.
    + right. right. exists k. split; [right; exact Hk | exact Hclose].
Qed.

Lemma is_duplicate_no_gap seen vid start :
  min_gap_seconds <= 0 ->
  is_duplicate seen vid start min_gap_seconds = false.
Proof.
  intros Hgap. unfold is_duplicate. induction seen as [|k seen IH]; simpl.
  - reflexivity.
  - rewrite IH, orb_false_r. apply andb_false_iff. right.
    apply Z.ltb_ge. lia.
Qed.

Lemma kept_after_no_gap results : forall seen,
  min_gap_seconds <= 0 -> kept_after seen results = results.
Proof.
  induction results as [|r rest IH]; intros seen Hgap; [reflexivity|].
  rewrite kept_after_unfold, is_duplicate_no_gap by assumption.
  f_equal. apply IH. assumption.
Qed.

Lemma is_duplicate_of_video seen r :
  dup (List.filter (fun k => String.eqb (fst k) (video_id r)) seen) r
  = dup seen r.
Proof.
  unfold is_duplicate. induction seen as [|k seen IH]; simpl; [reflexivity|].
  destruct (String.eqb (fst k) (video_id r)) eqn:Hk; simpl.
  - rewrite Hk, IH. reflexivity.
  - exact IH.
Qed.

Lemma kept_after_of_video v results : forall seen,
  of_video v (kept_after seen results)
  = kept_after (List.filter (fun k => String.eqb (fst k) v) seen)
               (of_video v results).
Proof.
  induction results as [|r rest IH]; intros seen; [reflexivity|].
  rewrite kept_after_unfold. unfold of_video at 2. simpl.
  destruct (String.eqb (video_id r) v) eqn:Hv.
  - apply String.eqb_eq in Hv. subst v.
    fold (of_video (video_id r) rest).
    rewrite kept_after_unfold, is_duplicate_of_video.
    destruct (dup seen r); [apply IH|].
    unfold of_video at 1. simpl. rewrite String.eqb_refl.
    fold (of_video (video_id r)
            (kept_after (seen ++ [(video_id r, start_seconds r)]) rest)).
    rewrite IH. rewrite List.filter_app. simpl. rewrite String.eqb_refl.
    reflexivity.
  - fold (of_video v rest).
    destruct (dup seen r); [apply IH|].
    unfold of_video at 1. simpl. rewrite Hv.
    fold (of_video v
            (kept_after (seen ++ [(video_id r, start_seconds r)]) rest)).
    rewrite IH. rewrite List.filter_app. simpl. rewrite Hv.
    rewrite app_nil_r. reflexivity.
Qed.

End DedupMore.

Lemma deduplicate_results_sublist_input results min_gap_seconds :
  deduplicate_results results min_gap_seconds `sublist_of` results.
Proof. apply kept_after_sublist. Qed.

(** X1. In the output of [deduplicate_results] any two results of the same
    video, at different places, have starts at least the minimal gap
    apart. *)
Theorem deduplicate_results_separated results min_gap_seconds i j a b :
  (i < j)%nat ->
  deduplicate_results results min_gap_seconds !! i = Some a ->
  deduplicate_results results min_gap_seconds !! j = Some b ->
  video_id a = video_id b ->
  min_gap_seconds <= Z.abs (start_seconds a - start_seconds b).
Proof.
  intros Hij Hi Hj.
  destruct (kept_after_separated min_gap_seconds results []) as [_ Hs].
  fold (deduplicate_results results min_gap_seconds) in Hs.
  revert i j Hij Hi Hj.
  induction Hs as [|x l Hs IH Hall]; intros i j Hij Hi Hj; [discriminate|].
  destruct j as [|j]; [lia|]. simpl in Hj.
  destruct i as [|i].
  - simpl in Hi. injection Hi as <-.
    rewrite List.Forall_forall in Hall. apply Hall.
    apply list_elem_of_In. eapply list_elem_of_lookup_2. exact Hj.
  - simpl in Hi. apply (IH i j); [lia | assumption | assumption].
Qed.

Lemma deduplicate_results_separated_witness :
  30 <= Z.abs (start_seconds (Ex.result_at HeaderChunk 2139)
               - start_seconds (Ex.result_at WindowChunk 2400)).
Proof.
  apply (deduplicate_results_separated
           [Ex.result_at HeaderChunk 2139; Ex.result_at WindowChunk 2150;
            Ex.result_at HeaderChunk 2160; Ex.result_at WindowChunk 2400]
           30 0 1);
    [lia | reflexivity | reflexivity | reflexivity].
Defined.

(** X2. Nothing is lost without a stand-in: every input result is kept by
    [deduplicate_results], or a kept result of the same video starts less
    than the minimal gap away from it. *)
Theorem deduplicate_results_covers results min_gap_seconds r :
  In r results ->
  In r (deduplicate_results results min_gap_seconds) \/
  exists k,
    In k (deduplicate_results results min_gap_seconds) /\
    video_id k = video_id r /\
    Z.abs (start_seconds k - start_seconds r) < min_gap_seconds.
Proof.
  intros Hin.
  destruct (kept_after_covers min_gap_seconds results [] r Hin)
    as [H|[H|H]].
  - left. exact H.
  - discriminate H.
  - right. exact H.
Qed.

Lemma deduplicate_results_covers_witness :
  let results :=
    [Ex.result_at HeaderChunk 2139; Ex.result_at WindowChunk 2150;
     Ex.result_at HeaderChunk 2160; Ex.result_at WindowChunk 2400] in
  let r := Ex.result_at WindowChunk 2150 in
  In r (deduplicate_results results 30) \/
  exists k,
    In k (deduplicate_results results 30) /\
    video_id k = video_id r /\
    Z.abs (start_seconds k - start_seconds r) < 30.
Proof.
  cbv zeta.
  apply (deduplicate_results_covers
           [Ex.result_at HeaderChunk 2139; Ex.result_at WindowChunk 2150;
            Ex.result_at HeaderChunk 2160; Ex.result_at WindowChunk 2400]
           30 (Ex.result_at WindowChunk 2150)).
  right. left. reflexivity.
Defined.

(** X3. With a minimal gap of 0 or less nothing counts as a duplicate:
    [deduplicate_results] returns its input unchanged. *)
Theorem deduplicate_results_no_gap results min_gap_seconds :
  min_gap_seconds <= 0 ->
  deduplicate_results results min_gap_seconds = results.
Proof. intros Hgap. apply kept_after_no_gap. exact Hgap. Qed.

Lemma deduplicate_results_no_gap_witness :
  deduplicate_results
    [Ex.result_at HeaderChunk 2139; Ex.result_at WindowChunk 2139] 0
  = [Ex.result_at HeaderChunk 2139; Ex.result_at WindowChunk 2139].
Proof.
  apply (deduplicate_results_no_gap
           [Ex.result_at HeaderChunk 2139; Ex.result_at WindowChunk 2139] 0).
  lia.
Defined.

(** X4. Videos are deduplicated independently of each other: the kept
    results of one video are what [deduplicate_results] keeps from the
    results of that video alone. *)
Theorem deduplicate_results_per_video results min_gap_seconds v :
  of_video v (deduplicate_results results min_gap_seconds)
  = deduplicate_results (of_video v results) min_gap_seconds.
Proof. apply (kept_after_of_video min_gap_seconds v results []). Qed.

(* ------------------------------------------------------------------ *)
(** ** Interleaving and retrieval *)

Lemma interleave_alternate (header_results window_results : list chunk) :
  interleave header_results window_results
  = alternate header_results window_results.
Proof.
  unfold interleave, Py.slice_from.
  revert window_results.
  induction header_results as [|h hs IH]; intros [|w ws]; simpl.
  - reflexivity.
  - reflexivity.
  - now rewrite app_nil_r.
  - now rewrite IH.
Qed.

Lemma alternate_facts {A} (xs : list A) : forall ys,
  Permutation (alternate xs ys) (xs ++ ys) /\
  xs `sublist_of` alternate xs ys /\
  ys `sublist_of` alternate xs ys.
Proof.
  induction xs as [|x xs IH]; intros ys.
  - simpl. repeat split; [reflexivity | apply sublist_nil_l | reflexivity].
  - destruct ys as [|y ys]; simpl.
    + rewrite app_nil_r. repeat split; [reflexivity | reflexivity |].
      apply sublist_nil_l.
    + destruct (IH ys) as (Hp & Hx & Hy). repeat split.
      * constructor. rewrite Hp. apply Permutation_middle.
      * apply sublist_skip, sublist_cons. exact Hx.
      * apply sublist_cons, sublist_skip. exact Hy.
Qed.

(** X5. The interleaving done by [retrieve] takes the two ranked lists in
    turns, header result first, and appends what is left of the longer
    list once the shorter one is used up. *)
Theorem interleave_takes_turns (header_results window_results : list chunk) :
  interleave header_results window_results
  = alternate header_results window_results /\
  (forall h hs w ws,
     interleave (h :: hs) (w :: ws) = h :: w :: interleave hs ws) /\
  (forall ws, interleave [] ws = ws) /\
  (forall hs, interleave hs [] = hs).
Proof.
  split; [apply interleave_alternate|]. split; [|split].
  - intros h hs w ws. rewrite !interleave_alternate. reflexivity.
  - intros ws. rewrite interleave_alternate. reflexivity.
  - intros hs. rewrite interleave_alternate. destruct hs; reflexivity.
Qed.

(** X6. Interleaving loses and invents nothing, and keeps both rankings:
    the merged list is a rearrangement of the two lists together, and each
    of the two lists is a subsequence of it. *)
Theorem interleave_keeps_rankings (header_results window_results : list chunk) :
  Permutation (interleave header_results window_results)
              (header_results ++ window_results) /\
  length (interleave header_results window_results)
  = (length header_results + length window_results)%nat /\
  header_results `sublist_of` interleave header_results window_results /\
  window_results `sublist_of` interleave header_results window_results.
Proof.
  rewrite interleave_alternate.
  destruct (alternate_facts header_results window_results) as (Hp & Hh & Hw).
  repeat split; try assumption.
  rewrite (Permutation_length Hp). apply length_app.
Qed.

Lemma interleave_permutation (hs ws : list chunk) :
  Permutation (interleave hs ws) (hs ++ ws).
Proof. rewrite interleave_alternate. apply alternate_facts. Qed.

Lemma slice_to_prefix {A} (xs : list A) (k : Z) :
  exists n, Py.slice_to xs k = firstn n xs /\ (0 <= k -> n = Z.to_nat k).
Proof.
  unfold Py.slice_to. destruct (Z.leb_spec 0 k) as [Hk|Hk].
  - exists (Z.to_nat k). split; [reflexivity | reflexivity].
  - eexists. split; [reflexivity | lia].
Qed.

Section RetrieveMore.

Variable index_search :
  string -> gmap string string -> gmap string Z -> Z -> list chunk.
Variable top_k : Z.
Variable question : string.
Variable video_id season : option string.

Local Abbreviation header_answer :=
  (index_search question (kind_filter video_id season "header")
                boost_dict top_k).
Local Abbreviation window_answer :=
  (index_search question (kind_filter video_id season "window")
                boost_dict top_k).
Local Abbreviation retrieved :=
  (fst (run (retrieve index_search top_k question video_id season))).

Lemma retrieved_prefix :
  exists n,
    retrieved
    = firstn n (deduplicate_results
                  (interleave header_answer window_answer) 30) /\
    (0 <= top_k -> n = Z.to_nat top_k).
Proof. rewrite retrieve_run. cbn [fst]. apply slice_to_prefix. Qed.

Lemma retrieved_sublist :
  retrieved `sublist_of` interleave header_answer window_answer.
Proof.
  destruct retrieved_prefix as (n & -> & _).
  etransitivity; [apply sublist_take|].
  apply deduplicate_results_sublist_input.
Qed.

End RetrieveMore.

Lemma strongly_sorted_lookup {A} (R : A -> A -> Prop) (l : list A) :
  StronglySorted R l ->
  forall i j a b, (i < j)%nat -> l !! i = Some a -> l !! j = Some b -> R a b.
Proof.
  induction 1 as [|x l Hs IH Hall]; intros i j a b Hij Hi Hj; [discriminate|].
  destruct j as [|j]; [lia|]. simpl in Hj.
  destruct i as [|i]; simpl in Hi.
  - injection Hi as <-. rewrite List.Forall_forall in Hall. apply Hall.
    apply list_elem_of_In. eapply list_elem_of_lookup_2. exact Hj.
  - apply (IH i j); [lia | assumption | assumption].
Qed.

(** X7. For a [top_k] that is not negative, [retrieve] returns at most
    [top_k] results; for every [top_k], what it returns is a subsequence
    of the interleaved answers of the index, so every result was returned
    by one of the two queries. *)
Theorem retrieve_bounded_and_sourced index_search top_k question video_id season :
  let header_results :=
    index_search question (kind_filter video_id season "header")
                 boost_dict top_k in
  let window_results :=
    index_search question (kind_filter video_id season "window")
                 boost_dict top_k in
  let out := fst (run (retrieve index_search top_k question video_id season)) in
  (0 <= top_k -> (length out <= Z.to_nat top_k)%nat) /\
  out `sublist_of` interleave header_results window_results /\
  (forall c, In c out -> In c header_results \/ In c window_results).
Proof.
  cbv zeta. split; [|split].
  - intros Hk.
    destruct (retrieved_prefix index_search top_k question video_id season)
      as (n & -> & Hn).
    rewrite (Hn Hk), length_take. lia.
  - apply retrieved_sublist.
  - intros c Hin.
    pose proof (retrieved_sublist index_search top_k question video_id season)
      as Hsub.
    apply list_elem_of_In in Hin.
    eapply elem_of_sublist in Hin; [|exact Hsub].
    apply list_elem_of_In in Hin.
    apply (Permutation_in _ (interleave_permutation _ _)) in Hin. apply in_app_or in Hin. exact Hin.
Qed.

Lemma retrieve_bounded_and_sourced_witness :
  let out := fst (run (retrieve Ex.generous_index 1 "topic" None None)) in
  (0 <= 1 -> (length out <= Z.to_nat 1)%nat) /\
  out `sublist_of`
    interleave
      (Ex.generous_index "topic" (kind_filter None None "header") boost_dict 1)
      (Ex.generous_index "topic" (kind_filter None None "window") boost_dict 1) /\
  (forall c, In c out ->
     In c (Ex.generous_index "topic" (kind_filter None None "header")
                             boost_dict 1) \/
     In c (Ex.generous_index "topic" (kind_filter None None "window")
                             boost_dict 1)).
Proof.
  apply (retrieve_bounded_and_sourced Ex.generous_index 1 "topic" None None).
Defined.

(** X8. Whatever the index returns and whatever [top_k] is, two results of
    [retrieve] that belong to the same video start at least 30 seconds
    apart. *)
Theorem retrieve_results_30_seconds_apart index_search top_k question
    scope_video scope_season i j a b :
  let out :=
    fst (run (retrieve index_search top_k question scope_video scope_season)) in
  (i < j)%nat ->
  out !! i = Some a ->
  out !! j = Some b ->
  video_id a = video_id b ->
  30 <= Z.abs (start_seconds a - start_seconds b).
Proof.
  cbv zeta.
  destruct (retrieved_prefix index_search top_k question scope_video
              scope_season)
    as (n & -> & _).
  intros Hij Hi Hj.
  apply lookup_take_Some in Hi as [Hi _].
  apply lookup_take_Some in Hj as [Hj _].
  revert Hij Hi Hj.
  apply (strongly_sorted_lookup (far_apart 30)).
  apply (kept_after_separated 30 _ []).
Qed.

Lemma retrieve_results_30_seconds_apart_witness :
  30 <= Z.abs (start_seconds (Ex.result_at HeaderChunk 2139)
               - start_seconds (Ex.result_at WindowChunk 2400)).
Proof.
  apply (retrieve_results_30_seconds_apart Ex.generous_index 5 "topic"
           None None 0 1);
    [lia | reflexivity | reflexivity | reflexivity].
Defined.

(** X9. For every [top_k] of at least 1, the first result of [retrieve] is
    the best header result when the header query returns anything, and
    the best window result otherwise; when both queries return nothing
    the result is empty, for every [top_k]. *)
Theorem retrieve_first_result index_search top_k question scope_video
    scope_season :
  let header_results :=
    index_search question (kind_filter scope_video scope_season "header")
                 boost_dict top_k in
  let window_results :=
    index_search question (kind_filter scope_video scope_season "window")
                 boost_dict top_k in
  let out :=
    fst (run (retrieve index_search top_k question scope_video scope_season)) in
  (1 <= top_k ->
   forall h hs, header_results = h :: hs -> exists rest, out = h :: rest) /\
  (1 <= top_k ->
   forall w ws, header_results = [] -> window_results = w :: ws ->
                exists rest, out = w :: rest) /\
  (header_results = [] -> window_results = [] -> out = []).
Proof.
  cbv zeta. rewrite retrieve_run. cbn [fst]. rewrite interleave_alternate.
  assert (Hfirst : 1 <= top_k ->
            forall first others,
              exists rest,
                Py.slice_to (deduplicate_results (first :: others) 30) top_k
                = first :: rest).
  { intros Hk first others. unfold deduplicate_results.
    rewrite kept_after_cons. simpl is_duplicate. cbv iota.
    unfold Py.slice_to. destruct (Z.leb_spec 0 top_k) as [_|H]; [|lia].
    destruct (Z.to_nat top_k) as [|n] eqn:Hn; [lia|].
    simpl. eauto. }
  split; [|split].
  - intros Hk h hs ->.
    destruct (index_search question
                (kind_filter scope_video scope_season "window") boost_dict top_k);
      simpl alternate; apply Hfirst; exact Hk.
  - intros Hk w ws -> ->. simpl alternate. apply Hfirst. exact Hk.
  - intros -> ->. simpl. unfold Py.slice_to.
    destruct (0 <=? top_k); apply firstn_nil.
Qed.

Lemma retrieve_first_result_witness :
  exists rest,
    fst (run (retrieve Ex.generous_index 3 "topic" None None))
    = Ex.result_at HeaderChunk 2139 :: rest.
Proof.
  destruct (retrieve_first_result Ex.generous_index 3 "topic" None None)
    as [Hfirst _].
  apply (Hfirst ltac:(lia) (Ex.result_at HeaderChunk 2139)
           [Ex.result_at HeaderChunk 2160]).
  reflexivity.
Defined.

(* ------------------------------------------------------------------ *)
(** ** The query sent to the index *)

Lemma set_filter_lookup key v filter_dict k :
  set_filter key v filter_dict !! k
  = if decide (key = k) then
      match given v with Some s => Some s | None => filter_dict !! k end
    else filter_dict !! k.
Proof.
  unfold set_filter, given. destruct v as [s|].
  - destruct (Py.truthy s).
    + destruct (decide (key = k)) as [->|Hne].
      * apply lookup_insert_eq.
      * apply lookup_insert_ne. exact Hne.
    + destruct (decide (key = k)); reflexivity.
  - destruct (decide (key = k)); reflexivity.
Qed.

(** X10. [search] sends the index exactly one query, with the question and
    [top_k] unchanged; its filter has the key [video_id], [season] or
    [chunk_type] exactly when the argument of that name is given and is
    not the empty string, with that argument as value, and has no other
    key; and [search] returns what the index answers. *)
Theorem search_builds_filter index_search query scope_video scope_season
    kind top_k :
  exists filter_dict,
    run (search index_search query scope_video scope_season kind top_k)
    = (index_search query filter_dict boost_dict top_k,
       [IndexCall query filter_dict boost_dict top_k]) /\
    filter_dict !! "video_id" = given scope_video /\
    filter_dict !! "season" = given scope_season /\
    filter_dict !! "chunk_type" = given kind /\
    (forall key, key <> "video_id" -> key <> "season" ->
                 key <> "chunk_type" -> filter_dict !! key = None).
Proof.
  eexists. split; [reflexivity|].
  repeat split; intros;
    rewrite !set_filter_lookup;
    repeat (destruct (decide _) as [?|?]; try congruence; try discriminate);
    try (destruct (given _); reflexivity);
    apply lookup_empty.
Qed.

(* ------------------------------------------------------------------ *)
(** ** The prompt and the call of the model *)

Lemma append_nil_right (s : string) : s +:+ "" = s.
Proof.
  induction s as [|c s IH]; [reflexivity|].
  change (String c (s +:+ "") = String c s). f_equal. exact IH.
Qed.

Lemma append_associative (a b c : string) :
  (a +:+ b) +:+ c = a +:+ (b +:+ c).
Proof.
  induction a as [|x a IH]; [reflexivity|].
  change (String x ((a +:+ b) +:+ c) = String x (a +:+ (b +:+ c))).
  f_equal. exact IH.
Qed.

Lemma occurs_in_refl (s : string) : occurs_in s s.
Proof. exists "", "". symmetry. exact (append_nil_right s). Qed.

Lemma occurs_in_left (sub s a : string) :
  occurs_in sub s -> occurs_in sub (a +:+ s).
Proof.
  intros (b & c & ->). exists (a +:+ b), c.
  now rewrite append_associative.
Qed.

Lemma occurs_in_right (sub s a : string) :
  occurs_in sub s -> occurs_in sub (s +:+ a).
Proof.
  intros (b & c & ->). exists b, (c +:+ a).
  now rewrite !append_associative.
Qed.

Lemma occurs_in_trans (a b c : string) :
  occurs_in a b -> occurs_in b c -> occurs_in a c.
Proof.
  intros Hab (x & y & ->).
  apply occurs_in_left, occurs_in_right. exact Hab.
Qed.

Lemma occurs_in_concat (sep x : string) (l : list string) :
  In x l -> occurs_in x (String.concat sep l).
Proof.
  induction l as [|y l IH]; intros Hin; [destruct Hin|].
  destruct l as [|z l].
  - destruct Hin as [->|[]]. apply occurs_in_refl.
  - change (String.concat sep (y :: z :: l))
      with (y +:+ sep +:+ String.concat sep (z :: l)).
    destruct Hin as [->|Hin].
    + apply occurs_in_right, occurs_in_refl.
    + apply occurs_in_left, occurs_in_left, IH. exact Hin.
Qed.

Lemma occurs_in_join (sep x : string) (l : list string) :
  In x l -> occurs_in x (Py.join sep l).
Proof.
  induction l as [|y l IH]; intros Hin; [destruct Hin|].
  destruct l as [|z l].
  - destruct Hin as [->|[]]. apply occurs_in_refl.
  - change (Py.join sep (y :: z :: l))
      with (y +:+ sep +:+ Py.join sep (z :: l)).
    destruct Hin as [->|Hin].
    + apply occurs_in_right, occurs_in_refl.
    + apply occurs_in_left, occurs_in_left, IH. exact Hin.
Qed.

Lemma enumerate_lookup {A} (xs : list A) : forall start n,
  enumerate start xs !! n = (fun x => (start + Z.of_nat n, x)) <$> xs !! n.
Proof.
  induction xs as [|x xs IH]; intros start n; [reflexivity|].
  destruct n as [|n]; simpl.
  - now rewrite Z.add_0_r.
  - rewrite IH. destruct (xs !! n); simpl; [|reflexivity].
    do 2 f_equal. lia.
Qed.

Lemma context_blocks_lookup (chunks : list chunk) (n : nat) :
  context_blocks chunks !! n
  = context_block (1 + Z.of_nat n) <$> chunks !! n.
Proof.
  unfold context_blocks. rewrite list_lookup_fmap, enumerate_lookup.
  destruct (chunks !! n); reflexivity.
Qed.

Lemma occurs_in_prompt (question : string) (chunks : list chunk) (x : string) :
  occurs_in x (Py.join context_separator (context_blocks chunks)) ->
  occurs_in x (build_prompt question chunks).
Proof.
  intros H. unfold build_prompt.
  apply occurs_in_left, occurs_in_right. exact H.
Qed.

(** X11. The prompt built by [build_prompt] contains the question, and
    for the [n]-th retrieved chunk (counted from 0) a block headed
    [Context n+1] that contains the title, section, timestamp, start
    second, deep link, speakers and text of that chunk. *)
Theorem build_prompt_contains question chunks :
  occurs_in question (build_prompt question chunks) /\
  (forall n c,
     chunks !! n = Some c ->
     let block := context_block (1 + Z.of_nat n) c in
     occurs_in block (build_prompt question chunks) /\
     occurs_in ("[Context " +:+ Py.str (1 + Z.of_nat n) +:+ "]") block /\
     occurs_in (episode_title c) block /\
     occurs_in (section c) block /\
     occurs_in (timestamp c) block /\
     occurs_in (Py.str (start_seconds c)) block /\
     occurs_in (deep_link c) block /\
     occurs_in (speakers c) block /\
     occurs_in (text c) block).
Proof.
  split.
  - unfold build_prompt.
    do 3 apply occurs_in_left. apply occurs_in_right, occurs_in_refl.
  - intros n c Hn block. split.
    + apply occurs_in_prompt, occurs_in_join.
      apply list_elem_of_In. eapply list_elem_of_lookup_2.
      rewrite context_blocks_lookup, Hn. reflexivity.
    + split.
      { exists "", (String.concat ""
                      [ nl; "Episode  : "; episode_title c; nl;
                        "Section  : "; section c; nl;
                        "Timestamp: "; timestamp c; "  ";
                        "(second "; Py.str (start_seconds c); ")"; nl;
                        "Link     : "; deep_link c; nl;
                        "Speakers : "; speakers c; nl;
                        "Content  : "; text c; nl ]).
        unfold block, context_block. simpl.
        rewrite !append_associative. reflexivity. }
      unfold block, context_block.
      repeat split; apply occurs_in_concat; simpl; tauto.
Qed.

Lemma build_prompt_contains_witness :
  occurs_in (deep_link (Ex.result_at HeaderChunk 2139))
            (context_block 1 (Ex.result_at HeaderChunk 2139)) /\
  occurs_in (context_block 1 (Ex.result_at HeaderChunk 2139))
            (build_prompt "what is a window?"
               [Ex.result_at HeaderChunk 2139; Ex.result_at WindowChunk 2400]).
Proof.
  destruct (build_prompt_contains "what is a window?"
              [Ex.result_at HeaderChunk 2139; Ex.result_at WindowChunk 2400])
    as [_ H].
  destruct (H 0%nat (Ex.result_at HeaderChunk 2139) eq_refl)
    as (Hblock & _ & _ & _ & _ & _ & Hlink & _).
  split; [exact Hlink | exact Hblock].
Defined.





(* ------------------------------------------------------------------ *)
(** ** The clip lookup *)

Lemma build_clip_lookup_snoc (clips : list clip) (c : clip) :
  build_clip_lookup (Some (clips ++ [c]))
  = <[default "" (name c) := clip_entry c]> (build_clip_lookup (Some clips)).
Proof. unfold build_clip_lookup. simpl. now rewrite fold_left_app. Qed.

(** X14. The clip lookup answers a name with the entry of the last clip of
    that name in the list (later clips overwrite earlier ones), and with
    nothing when no clip has the name; an absent clip list gives the empty
    lookup. A clip without name is entered under the empty name. *)
Theorem build_clip_lookup_last_wins (clips : list clip) (n : string) :
  build_clip_lookup (Some clips) !! n
  = clip_entry <$> last (clips_named n clips) /\
  build_clip_lookup None !! n = None.
Proof.
  split; [|apply lookup_empty].
  induction clips as [|c clips IH] using rev_ind.
  - apply lookup_empty.
  - rewrite build_clip_lookup_snoc. unfold clips_named.
    rewrite List.filter_app. simpl.
    destruct (String.eqb_spec (default "" (name c)) n) as [Heq|Hne].
    + rewrite Heq, lookup_insert_eq, last_snoc. reflexivity.
    + rewrite lookup_insert_ne by exact Hne. rewrite app_nil_r. exact IH.
Qed.

(** X15. [seconds_to_timestamp] never gives the same text for two
    different numbers of seconds, negative ones included. *)
Theorem seconds_to_timestamp_injective (s t : Z) :
  seconds_to_timestamp s = seconds_to_timestamp t <-> s = t.
Proof.
  split; [apply seconds_to_timestamp_inj | intros ->; reflexivity].
Qed.

(* ------------------------------------------------------------------ *)
(** ** Header chunker: clips, sections and lines *)

(** X16. A header chunk whose section label is the name of a clip takes
    its start, its timestamp and its deep link from the lookup entry of
    that clip, whatever the lines of the section are. *)
Theorem header_chunk_uses_clip clip_lookup episode_meta transcript c info :
  In c (chunk_by_headers clip_lookup episode_meta transcript) ->
  clip_lookup !! section c = Some info ->
  start_seconds c = ci_start_seconds info /\
  timestamp c = ci_timestamp info /\
  deep_link c = ci_deep_link info.
Proof.
  intros Hin.
  assert (Hall : Forall (fun c =>
            forall info, clip_lookup !! section c = Some info ->
              start_seconds c = ci_start_seconds info /\
              timestamp c = ci_timestamp info /\
              deep_link c = ci_deep_link info)
          (chunk_by_headers clip_lookup episode_meta transcript)).
  { apply chunks_invariant with (I := fun _ => True); [exact I | auto |].
    intros st _ _ info' Hsome. unfold header_chunk in *. simpl in *.
    rewrite Hsome. repeat split. }
  rewrite List.Forall_forall in Hall. exact (Hall c Hin info).
Qed.

Lemma header_chunk_uses_clip_witness :
  let c := header_chunk (build_clip_lookup (Some [Ex.topic_clip])) Ex.meta
             (HeaderState [] "Topic"
                [Ex.spoken 42 "hello"; Ex.spoken 50 "world"] 2139) in
  start_seconds c = 2139 /\
  timestamp c = "35:39" /\
  deep_link c = "https://www.youtube.com/watch?v=V1&t=2139".
Proof.
  cbv zeta.
  apply (header_chunk_uses_clip (build_clip_lookup (Some [Ex.topic_clip]))
           Ex.meta Ex.topic_at_42 _ (clip_entry Ex.topic_clip)).
  - left. vm_compute. reflexivity.
  - vm_compute. reflexivity.
Defined.

Section HeaderGroups.

Variable clip_lookup : gmap string clip_info.
Variable episode_meta : yaml_data.

Local Abbreviation step := (header_step clip_lookup episode_meta).

Lemma grouped_flush processed st :
  grouped processed st ->
  exists groups,
    Forall2 chunk_of_group (flush_chunk clip_lookup episode_meta st) groups /\
    concat (map snd groups) = List.filter is_spoken processed /\
    Forall (fun g => fst g = "Introduction" \/
                     exists it, In it processed /\ header it = Some (fst g))
           groups.
Proof.
  intros (groups & Hch & Hlines & Hlabels & Hcur). unfold flush_chunk.
  destruct (current_lines st) as [|e rest] eqn:Hl.
  - exists groups. rewrite app_nil_r in Hlines. auto.
  - exists (groups ++ [(current_header st, e :: rest)]). split; [|split].
    + apply Forall2_app; [exact Hch|]. constructor; [|constructor].
      unfold chunk_of_group, header_chunk. simpl. rewrite Hl.
      repeat split. discriminate.
    + rewrite map_app, concat_app. simpl. rewrite app_nil_r. exact Hlines.
    + apply Forall_app. split; [exact Hlabels|].
      constructor; [exact Hcur | constructor].
Qed.

Lemma grouped_loop (transcript : list item) :
  grouped transcript (fold_left step transcript header_init).
Proof.
  induction transcript as [|it processed IH] using rev_ind.
  - exists []. split; [constructor|]. split; [reflexivity|].
    split; [constructor|]. left. reflexivity.
  - rewrite fold_left_app. simpl.
    set (st := fold_left step processed header_init) in *.
    assert (Hweak : forall g : string * list item,
              (fst g = "Introduction" \/
               exists x, In x processed /\ header x = Some (fst g)) ->
              (fst g = "Introduction" \/
               exists x, In x (processed ++ [it]) /\ header x = Some (fst g))).
    { intros g [H|(x & Hx & Hh)]; [left; exact H|].
      right. exists x. split; [apply in_or_app; left; exact Hx | exact Hh]. }
    unfold header_step. destruct (header it) as [h|] eqn:Hh.
    + destruct (grouped_flush processed st IH) as (groups & Hch & Hlines & Hlab).
      exists groups. simpl. split; [exact Hch|]. split; [|split].
      * rewrite app_nil_r, List.filter_app. simpl. unfold is_spoken.
        rewrite Hh, app_nil_r. exact Hlines.
      * eapply List.Forall_impl; [|exact Hlab]. exact Hweak.
      * right. exists it. split; [|exact Hh].
        apply in_or_app. right. left. reflexivity.
    + destruct IH as (groups & Hch & Hlines & Hlab & Hcur).
      destruct (line it) as [t|] eqn:Ht.
      * exists groups. simpl. split; [exact Hch|]. split; [|split].
        { rewrite List.filter_app. simpl. unfold is_spoken.
          rewrite Hh, Ht. rewrite app_assoc, Hlines. reflexivity. }
        { eapply List.Forall_impl; [|exact Hlab]. exact Hweak. }
        { apply (Hweak (current_header st, [])). exact Hcur. }
      * exists groups. split; [exact Hch|]. split; [|split].
        { rewrite List.filter_app. simpl. unfold is_spoken.
          rewrite Hh, Ht, app_nil_r. exact Hlines. }
        { eapply List.Forall_impl; [|exact Hlab]. exact Hweak. }
        { apply (Hweak (current_header st, [])). exact Hcur. }
Qed.

End HeaderGroups.

(** X17. The header chunker puts every spoken line of the transcript (an
    entry with a [line] key and no [header] key) into exactly one chunk
    and keeps the order: the chunks are the renderings of consecutive,
    non-empty groups of lines whose concatenation is the list of spoken
    lines. Each chunk is labelled "Introduction" or with a header of the
    transcript. *)
Theorem header_chunks_partition_lines clip_lookup episode_meta transcript :
  exists groups : list (string * list item),
    Forall2 (fun c g =>
               section c = fst g /\
               text c = combined_text (snd g) /\
               speakers c = joined_speakers (snd g) /\
               snd g <> [])
            (chunk_by_headers clip_lookup episode_meta transcript) groups /\
    concat (map snd groups) = List.filter is_spoken transcript /\
    Forall (fun g => fst g = "Introduction" \/
                     exists it, In it transcript /\ header it = Some (fst g))
           groups.
Proof.
  unfold chunk_by_headers.
  apply (grouped_flush clip_lookup episode_meta transcript).
  apply grouped_loop.
Qed.

Lemma header_chunks_empty_iff clip_lookup episode_meta transcript :
  chunk_by_headers clip_lookup episode_meta transcript = [] <->
  List.filter is_spoken transcript = [].
Proof.
  destruct (grouped_flush clip_lookup episode_meta transcript _
              (grouped_loop clip_lookup episode_meta transcript))
    as (groups & Hch & Hlines & _).
  fold (chunk_by_headers clip_lookup episode_meta transcript) in Hch.
  rewrite <- Hlines. split.
  - intros Hnil. rewrite Hnil in Hch. inversion Hch. reflexivity.
  - intros Hnil. destruct Hch as [|c g cs gs Hc Hrest]; [reflexivity|].
    destruct Hc as (_ & _ & _ & Hne). simpl in Hnil.
    destruct (snd g); [contradiction | discriminate].
Qed.

(* ------------------------------------------------------------------ *)
(** ** Window chunker: which windows are emitted *)

Section WindowExact.

Variable episode_meta : yaml_data.
Variable window_seconds step_seconds : Z.
Hypothesis step_positive : 0 < step_seconds.

Local Abbreviation loop :=
  (window_loop episode_meta window_seconds step_seconds).
Local Abbreviation chunk_at lines k :=
  (window_chunk episode_meta (k * step_seconds)
     (window_lines window_seconds lines (k * step_seconds))).

Lemma window_loop_exact fuel : forall lines total_secs k0 acc out,
  loop fuel lines total_secs (k0 * step_seconds) acc = Some out ->
  forall c,
    In c out <->
    In c acc \/
    exists k, k0 <= k /\ k * step_seconds <= total_secs /\
              window_lines window_seconds lines (k * step_seconds) <> [] /\
              c = chunk_at lines k.
Proof.
  induction fuel as [|fuel IH]; intros lines total k0 acc out Hrun c.
  - simpl in Hrun.
    destruct (Z.leb_spec (k0 * step_seconds) total) as [Hc|Hc];
      [discriminate|].
    injection Hrun as <-. split; [auto|].
    intros [H|(k & Hk & Hle & _)]; [exact H | nia].
  - destruct (Z.leb_spec (k0 * step_seconds) total) as [Hc|Hc].
    2:{ rewrite window_loop_exit in Hrun by assumption.
        injection Hrun as <-. split; [auto|].
        intros [H|(k & Hk & Hle & _)]; [exact H | nia]. }
    rewrite window_loop_iter in Hrun by assumption.
    replace (k0 * step_seconds + step_seconds)
      with ((k0 + 1) * step_seconds) in Hrun by lia.
    rewrite (IH _ _ _ _ _ Hrun c). clear IH Hrun.
    destruct (window_lines window_seconds lines (k0 * step_seconds))
      as [|l wl] eqn:Hwl.
    + split.
      * intros [H|(k & Hk & Hrest)]; [left; exact H|].
        right. exists k. split; [lia | exact Hrest].
      * intros [H|(k & Hk & Hle & Hne & Hc')]; [left; exact H|].
        right. exists k. split; [|auto].
        destruct (Z.eq_dec k k0) as [->|]; [|lia].
        rewrite Hwl in Hne. contradiction.
    + split.
      * intros [H|(k & Hk & Hrest)].
        { apply in_app_or in H as [H|[<-|[]]]; [left; exact H|].
          right. exists k0. rewrite Hwl.
          repeat split; [lia | exact Hc | discriminate]. }
        { right. exists k. split; [lia | exact Hrest]. }
      * intros [H|(k & Hk & Hle & Hne & Hc')].
        { left. apply in_or_app. left. exact H. }
        { destruct (Z.eq_dec k k0) as [->|].
          - left. apply in_or_app. right. left.
            rewrite Hc', Hwl. reflexivity.
          - right. exists k. repeat split; [lia | exact Hle | exact Hne | exact Hc']. }
Qed.

Lemma chunk_by_time_window_exact transcript chunks :
  chunk_by_time_window episode_meta window_seconds step_seconds transcript
  = Returns chunks ->
  forall c,
    In c chunks <->
    exists k, 0 <= k /\ k * step_seconds <= last_second transcript /\
              is_window episode_meta window_seconds step_seconds transcript k c.
Proof.
  unfold chunk_by_time_window, last_second, is_window, spoken_lines.
  destruct (List.filter has_line transcript) as [|l lines] eqn:Hlines.
  - intros [= <-] c. split; [intros []|].
    intros (k & _ & _ & Hne & _). apply Hne. reflexivity.
  - destruct (window_loop _ _ _ _ _ _ _ _) as [out|] eqn:Hloop;
      [|discriminate].
    intros [= <-] c.
    change 0 with (0 * step_seconds) in Hloop.
    rewrite (window_loop_exact _ _ _ _ _ _ Hloop c).
    split.
    + intros [[]|(k & Hk & Hle & Hne & Hc)]. exists k. auto.
    + intros (k & Hk & Hle & Hne & Hc). right. exists k. auto.
Qed.

End WindowExact.

(** X18. With a positive step the window chunker emits exactly the windows
    that start at a multiple [k * step_seconds], [k >= 0], not later than
    the time of the last spoken line, and that hold at least one line;
    each with all lines [l] such that
    [k * step_seconds <= sec l < k * step_seconds + window_seconds]. *)
Theorem window_chunks_exactly episode_meta window_seconds step_seconds
    transcript chunks c :
  0 < step_seconds ->
  chunk_by_time_window episode_meta window_seconds step_seconds transcript
  = Returns chunks ->
  (In c chunks <->
   exists k, 0 <= k /\ k * step_seconds <= last_second transcript /\
     window_lines window_seconds (spoken_lines transcript) (k * step_seconds)
     <> [] /\
     c = window_chunk episode_meta (k * step_seconds)
           (window_lines window_seconds (spoken_lines transcript)
                         (k * step_seconds))).
Proof.
  intros Hstep Hrun.
  apply (chunk_by_time_window_exact episode_meta window_seconds step_seconds
           Hstep transcript chunks Hrun c).
Qed.

Lemma window_chunks_exactly_witness :
  In (window_chunk Ex.meta 30 [Ex.l40; Ex.l70])
     [ window_chunk Ex.meta 0 [Ex.l10; Ex.l40];
       window_chunk Ex.meta 30 [Ex.l40; Ex.l70];
       window_chunk Ex.meta 60 [Ex.l70; Ex.l100];
       window_chunk Ex.meta 90 [Ex.l100] ].
Proof.
  apply (window_chunks_exactly Ex.meta 60 30 Ex.four_lines
           _ (window_chunk Ex.meta 30 [Ex.l40; Ex.l70]) ltac:(lia) eq_refl).
  exists 1. repeat split; [lia | vm_compute; discriminate | discriminate].
Defined.

(** X19. When the step is positive and not longer than the window, no line
    falls between windows: every spoken line whose time is not negative
    and not later than the time of the last spoken line lies in the
    window of an emitted chunk, and its rendered text occurs in the text
    of that chunk. *)
Theorem window_chunks_cover_lines episode_meta window_seconds step_seconds
    transcript chunks l :
  0 < step_seconds ->
  step_seconds <= window_seconds ->
  chunk_by_time_window episode_meta window_seconds step_seconds transcript
  = Returns chunks ->
  In l (spoken_lines transcript) ->
  0 <= entry_sec l <= last_second transcript ->
  exists c,
    In c chunks /\
    start_seconds c <= entry_sec l < start_seconds c + window_seconds /\
    occurs_in (text_part l) (text c).
Proof.
  intros Hstep Hwin Hrun Hl [H0 Hlast].
  set (k := entry_sec l / step_seconds).
  assert (Hk : 0 <= k) by (apply Z.div_pos; lia).
  pose proof (Z.mul_div_le (entry_sec l) step_seconds Hstep) as Hlow.
  pose proof (Z.mod_pos_bound (entry_sec l) step_seconds Hstep) as Hmod.
  pose proof (Z.div_mod (entry_sec l) step_seconds ltac:(lia)) as Hdm.
  fold k in Hlow, Hdm.
  assert (Hin : In l (window_lines window_seconds (spoken_lines transcript)
                        (k * step_seconds))).
  { unfold window_lines. apply List.filter_In. split; [exact Hl|].
    apply andb_true_iff. split; [apply Z.leb_le | apply Z.ltb_lt]; lia. }
  exists (window_chunk episode_meta (k * step_seconds)
            (window_lines window_seconds (spoken_lines transcript)
                          (k * step_seconds))).
  split; [|split].
  - apply (chunk_by_time_window_exact episode_meta window_seconds
             step_seconds Hstep transcript chunks Hrun).
    exists k. split; [exact Hk|]. split; [lia|]. split; [|reflexivity].
    intros Hnil. rewrite Hnil in Hin. destruct Hin.
  - simpl. lia.
  - simpl. unfold combined_text, text_parts. apply occurs_in_join.
    apply in_map. exact Hin.
Qed.

Lemma window_chunks_cover_lines_witness :
  exists c,
    In c [ window_chunk Ex.meta 0 [Ex.l10; Ex.l40];
           window_chunk Ex.meta 30 [Ex.l40; Ex.l70];
           window_chunk Ex.meta 60 [Ex.l70; Ex.l100];
           window_chunk Ex.meta 90 [Ex.l100] ] /\
    start_seconds c <= entry_sec Ex.l70 < start_seconds c + 60 /\
    occurs_in (text_part Ex.l70) (text c).
Proof.
  apply (window_chunks_cover_lines Ex.meta 60 30 Ex.four_lines _ Ex.l70);
    [lia | lia | reflexivity | right; right; left; reflexivity
    | vm_compute; split; discriminate].
Defined.

(** X20. With a step of 0 or less the window chunker never returns as soon
    as the transcript has a spoken line and the time of the last one is
    not negative: the loop condition stays true for every number of
    iterations. *)
Theorem window_chunker_never_returns episode_meta window_seconds step_seconds
    transcript :
  step_seconds <= 0 ->
  spoken_lines transcript <> [] ->
  0 <= last_second transcript ->
  chunk_by_time_window episode_meta window_seconds step_seconds transcript
  = Diverges /\
  (forall fuel,
     window_loop episode_meta window_seconds step_seconds fuel
       (spoken_lines transcript) (last_second transcript) 0 []
     = None).
Proof.
  intros Hstep Hlines Hlast.
  assert (Hloop : forall fuel,
            window_loop episode_meta window_seconds step_seconds fuel
              (spoken_lines transcript) (last_second transcript) 0 []
            = None).
  { intros fuel. apply window_loop_endless; assumption. }
  split; [|exact Hloop].
  unfold chunk_by_time_window. fold (spoken_lines transcript).
  destruct (spoken_lines transcript) as [|l lines] eqn:Hl; [contradiction|].
  unfold last_second in Hloop. rewrite Hl in Hloop.
  rewrite Hloop. reflexivity.
Qed.

Lemma window_chunker_never_returns_witness :
  chunk_by_time_window Ex.meta 60 0 Ex.four_lines = Diverges /\
  (forall fuel,
     window_loop Ex.meta 60 0 fuel
       (spoken_lines Ex.four_lines) (last_second Ex.four_lines) 0 []
     = None).
Proof.
  apply (window_chunker_never_returns Ex.meta 60 0 Ex.four_lines);
    [lia | discriminate | vm_compute; discriminate].
Defined.

(** X21. Both chunkers return nothing for a transcript without spoken
    lines: the header chunker emits no chunk exactly when no entry has a
    [line] key without a [header] key, and the window chunker returns the
    empty list, for every window length and step, when no entry has a
    [line] key or when the time of the last spoken line is negative. *)
Theorem chunkers_empty clip_lookup episode_meta window_seconds step_seconds
    transcript :
  (chunk_by_headers clip_lookup episode_meta transcript = [] <->
   List.filter is_spoken transcript = []) /\
  (spoken_lines transcript = [] \/ last_second transcript < 0 ->
   chunk_by_time_window episode_meta window_seconds step_seconds transcript
   = Returns []).
Proof.
  split; [apply header_chunks_empty_iff|].
  unfold chunk_by_time_window, last_second, spoken_lines.
  destruct (List.filter has_line transcript) as [|l lines]; [reflexivity|].
  intros [H|H]; [discriminate|].
  rewrite window_loop_exit by exact H. reflexivity.
Qed.

Lemma chunkers_empty_witness :
  chunk_by_time_window Ex.meta 60 0 [Ex.heading "Topic"] = Returns [].
Proof.
  destruct (chunkers_empty ∅ Ex.meta 60 0 [Ex.heading "Topic"]) as [_ H].
  apply H. left. reflexivity.
Defined.

(* ------------------------------------------------------------------ *)
(** ** One file, and the whole directory *)

Lemma header_chunks_kind_and_metadata clip_lookup data transcript :
  Forall (fun c => chunk_type c = HeaderChunk /\ carries_metadata data c)
         (chunk_by_headers clip_lookup data transcript).
Proof.
  apply chunks_invariant with (I := fun _ => True); [exact I | auto |].
  intros st _ _. unfold carries_metadata, header_chunk. simpl.
  repeat split.
Qed.

Lemma window_chunks_kind_and_metadata data window_seconds step_seconds
    transcript chunks :
  0 < step_seconds ->
  chunk_by_time_window data window_seconds step_seconds transcript
  = Returns chunks ->
  Forall (fun c => chunk_type c = WindowChunk /\ carries_metadata data c)
         chunks.
Proof.
  intros Hstep Hrun. apply List.Forall_forall. intros c Hin.
  apply (chunk_by_time_window_exact data window_seconds step_seconds Hstep
           transcript chunks Hrun) in Hin.
  destruct Hin as (k & _ & _ & _ & ->).
  unfold carries_metadata, window_chunk. simpl. repeat split.
Qed.

(** X22. What [parse_md_file] returns for a file whose front matter was
    read is the list of its header chunks followed by the list of its
    window chunks (windows of 60 seconds every 30 seconds), and every one
    of these chunks carries the video id, titles, season and episode
    number of that front matter. *)
Theorem parse_md_file_chunks f data segments :
  split_frontmatter f = inr data ->
  parse_md_file f = Returns segments ->
  exists header_chunks window_chunks,
    segments = header_chunks ++ window_chunks /\
    Forall (fun c => chunk_type c = HeaderChunk) header_chunks /\
    Forall (fun c => chunk_type c = WindowChunk) window_chunks /\
    Forall (carries_metadata data) segments /\
    (default [] (transcript data) <> [] ->
     header_chunks
     = chunk_by_headers (build_clip_lookup (quotableClips data)) data
         (default [] (transcript data)) /\
     chunk_by_time_window data 60 30 (default [] (transcript data))
     = Returns window_chunks).
Proof.
  intros Hsplit. unfold parse_md_file. rewrite Hsplit.
  destruct (default [] (transcript data)) as [|it items] eqn:Ht.
  - intros [= <-]. exists [], [].
    split; [reflexivity|]. split; [constructor|]. split; [constructor|].
    split; [constructor|]. intros H. contradiction.
  - destruct (chunk_by_time_window data 60 30 (it :: items))
      as [ws| |] eqn:Hw; try discriminate.
    intros [= <-].
    pose proof (header_chunks_kind_and_metadata
                  (build_clip_lookup (quotableClips data)) data (it :: items))
      as Hh.
    pose proof (window_chunks_kind_and_metadata data 60 30 (it :: items) ws
                  ltac:(lia) Hw) as Hws.
    eexists. exists ws. split; [reflexivity|]. split; [|split; [|split]].
    + eapply List.Forall_impl; [|exact Hh]. intros c [H _]. exact H.
    + eapply List.Forall_impl; [|exact Hws]. intros c [H _]. exact H.
    + apply Forall_app. split.
      * eapply List.Forall_impl; [|exact Hh]. intros c [_ H]. exact H.
      * eapply List.Forall_impl; [|exact Hws]. intros c [_ H]. exact H.
    + intros _. split; reflexivity.
Qed.

Lemma parse_md_file_chunks_witness :
  exists header_chunks window_chunks,
    segments_of Ex.good_file = header_chunks ++ window_chunks /\
    Forall (fun c => chunk_type c = HeaderChunk) header_chunks /\
    Forall (fun c => chunk_type c = WindowChunk) window_chunks.
Proof.
  destruct (parse_md_file_chunks Ex.good_file _ (segments_of Ex.good_file)
              eq_refl eq_refl) as (hs & ws & H1 & H2 & H3 & _).
  exists hs, ws. repeat split; assumption.
Defined.

(** X23. [load_all_episodes] always ends: it raises [FileNotFoundError]
    exactly when the directory does not exist, raises [ValueError] exactly
    when the directory holds no file to load, and returns in every other
    case; no failure of a single file makes it raise. *)
Theorem load_all_episodes_outcomes episodes_dir :
  (load_all_episodes episodes_dir = Raises FileNotFoundError <->
   episodes_dir = None) /\
  (load_all_episodes episodes_dir = Raises ValueError <->
   exists found, episodes_dir = Some found /\ kept_files found = []) /\
  ((exists segments, load_all_episodes episodes_dir = Returns segments) <->
   exists found, episodes_dir = Some found /\ kept_files found <> []).
Proof.
  unfold load_all_episodes, load_run.
  destruct episodes_dir as [found|].
  - fold (kept_files found).
    destruct (kept_files found) as [|f files] eqn:Hk.
    + split; [split; discriminate|]. split.
      * split; [eauto | reflexivity].
      * split; [intros [? H]; discriminate H|].
        intros (found' & [= <-] & Hne). rewrite Hk in Hne. contradiction.
    + rewrite load_loop_closed_form.
      split; [split; discriminate|]. split.
      * split; [discriminate|].
        intros (found' & [= <-] & Hnil). rewrite Hk in Hnil. discriminate.
      * split; [|eauto]. intros _. exists found. rewrite Hk.
        split; [reflexivity | discriminate].
  - split; [split; reflexivity|]. split.
    + split; [discriminate | intros (? & H & _); discriminate H].
    + split; [intros [? H]; discriminate H
             | intros (? & H & _); discriminate H].
Qed.

Lemma load_all_episodes_never_diverges episodes_dir :
  load_all_episodes episodes_dir <> Diverges.
Proof.
  unfold load_all_episodes, load_run.
  destruct episodes_dir as [found|]; [|discriminate].
  destruct (List.filter _ found) as [|f files]; [discriminate|].
  rewrite load_loop_closed_form. discriminate.
Qed.

(** X24. A file named [_template.md] is never read: the loader behaves the
    same, in result and in recorded failures, with and without it,
    wherever it is listed and whatever it contains. *)
Theorem load_ignores_template before after f :
  file_name f = "_template.md" ->
  load_run (Some (before ++ f :: after)) = load_run (Some (before ++ after)) /\
  load_all_episodes (Some (before ++ f :: after))
  = load_all_episodes (Some (before ++ after)).
Proof.
  intros Hname.
  assert (Hkept : kept_files (before ++ f :: after)
                  = kept_files (before ++ after)).
  { unfold kept_files. rewrite !List.filter_app. simpl.
    unfold skipped at 2. rewrite Hname. reflexivity. }
  assert (Hrun : load_run (Some (before ++ f :: after))
                 = load_run (Some (before ++ after))).
  { unfold load_run. fold (kept_files (before ++ f :: after)).
    fold (kept_files (before ++ after)). rewrite Hkept. reflexivity. }
  split; [exact Hrun|]. unfold load_all_episodes. rewrite Hrun. reflexivity.
Qed.

Lemma load_ignores_template_witness :
  load_run (Some ([Ex.good_file] ++ Ex.template_file :: [Ex.broken_file]))
  = load_run (Some ([Ex.good_file] ++ [Ex.broken_file])) /\
  load_all_episodes
    (Some ([Ex.good_file] ++ Ex.template_file :: [Ex.broken_file]))
  = load_all_episodes (Some ([Ex.good_file] ++ [Ex.broken_file])).
Proof.
  apply (load_ignores_template [Ex.good_file] [Ex.broken_file]
           Ex.template_file).
  reflexivity.
Defined.

(* ------------------------------------------------------------------ *)
(** ** The list of episodes *)

Lemma NoDup_app_snoc {A} (l : list A) (x : A) :
  List.NoDup l -> ~ In x l -> List.NoDup (l ++ [x]).
Proof.
  intros Hnd Hx. induction Hnd as [|y l Hy Hnd IH]; simpl.
  - constructor; [intros [] | constructor].
  - constructor.
    + rewrite in_app_iff. intros [H|[->|[]]]; [contradiction|].
      apply Hx. left. reflexivity.
    + apply IH. intros H. apply Hx. right. exact H.
Qed.

Lemma string_compare_refl (s : string) : String.compare s s = Eq.
Proof.
  pose proof (String.compare_antisym s s) as H.
  destruct (String.compare s s); simpl in H; congruence.
Qed.

Lemma string_compare_lt_trans (s1 s2 s3 : string) :
  String.compare s1 s2 = Lt -> String.compare s2 s3 = Lt ->
  String.compare s1 s3 = Lt.
Proof.
  intros H12 H23.
  assert (Hle : String.le s1 s3).
  { transitivity s2; unfold String.le, String.leb.
    - rewrite H12. exact I.
    - rewrite H23. exact I. }
  unfold String.le, String.leb in Hle.
  destruct (String.compare s1 s3) eqn:H13; [|reflexivity|destruct Hle].
  apply String.compare_eq_iff in H13. subst s3.
  rewrite String.compare_antisym, H12 in H23. discriminate.
Qed.

Lemma key_lt_compare (a b : episode_entry) :
  key_lt a b = match key_compare a b with Lt => true | _ => false end.
Proof.
  unfold key_lt, key_compare.
  destruct (String.compare (ep_season a) (ep_season b)); reflexivity.
Qed.

Lemma key_compare_antisym (a b : episode_entry) :
  key_compare a b = CompOpp (key_compare b a).
Proof.
  unfold key_compare.
  rewrite (String.compare_antisym (ep_season b) (ep_season a)).
  rewrite (String.compare_antisym (ep_episode_num b) (ep_episode_num a)).
  destruct (String.compare (ep_season a) (ep_season b)); simpl;
    try reflexivity.
  destruct (String.compare (ep_episode_num a) (ep_episode_num b));
    reflexivity.
Qed.

Lemma key_compare_eq (a b c : episode_entry) :
  key_compare a b = Eq -> key_compare a c = key_compare b c.
Proof.
  unfold key_compare. intros H.
  destruct (String.compare (ep_season a) (ep_season b)) eqn:Hs;
    try discriminate.
  apply String.compare_eq_iff in Hs, H. now rewrite Hs, H.
Qed.

Lemma key_compare_lt_trans (a b c : episode_entry) :
  key_compare a b = Lt -> key_compare b c = Lt -> key_compare a c = Lt.
Proof.
  unfold key_compare. intros Hab Hbc.
  destruct (String.compare (ep_season a) (ep_season b)) eqn:Hsab;
    try discriminate;
    destruct (String.compare (ep_season b) (ep_season c)) eqn:Hsbc;
    try discriminate.
  - apply String.compare_eq_iff in Hsab, Hsbc. rewrite Hsab, Hsbc.
    rewrite string_compare_refl.
    eapply string_compare_lt_trans; eassumption.
  - apply String.compare_eq_iff in Hsab. rewrite Hsab, Hsbc. reflexivity.
  - apply String.compare_eq_iff in Hsbc. rewrite <- Hsbc, Hsab. reflexivity.
  - rewrite (string_compare_lt_trans _ _ _ Hsab Hsbc). reflexivity.
Qed.

Lemma key_lt_asym (x y : episode_entry) : key_lt y x = true -> key_le y x.
Proof.
  unfold key_le. rewrite !key_lt_compare, (key_compare_antisym x y).
  destruct (key_compare y x); simpl; congruence.
Qed.

Lemma key_le_trans (x y z : episode_entry) :
  key_le x y -> key_le y z -> key_le x z.
Proof.
  unfold key_le. rewrite !key_lt_compare. intros Hyx Hzy.
  destruct (key_compare z x) eqn:Hzx; try reflexivity.
  destruct (key_compare z y) eqn:Hzy'; try discriminate.
  - rewrite <- (key_compare_eq _ _ _ Hzy'), Hzx in Hyx. discriminate.
  - assert (Hyz : key_compare y z = Lt).
    { rewrite key_compare_antisym, Hzy'. reflexivity. }
    rewrite (key_compare_lt_trans _ _ _ Hyz Hzx) in Hyx. discriminate.
Qed.

Lemma sort_insert_perm x l : Permutation (sort_insert x l) (x :: l).
Proof.
  induction l as [|y l IH]; simpl; [reflexivity|].
  destruct (key_lt y x); [|reflexivity].
  rewrite IH. apply perm_swap.
Qed.

Lemma stable_sort_perm l : Permutation (stable_sort l) l.
Proof.
  induction l as [|x l IH]; simpl; [reflexivity|].
  rewrite sort_insert_perm. now constructor.
Qed.

Lemma sort_insert_sorted x l :
  StronglySorted key_le l -> StronglySorted key_le (sort_insert x l).
Proof.
  induction 1 as [|y l Hs IH Hall]; simpl.
  - constructor; constructor.
  - destruct (key_lt y x) eqn:Hyx.
    + constructor; [exact IH|].
      rewrite List.Forall_forall in *. intros z Hz.
      apply (Permutation_in _ (sort_insert_perm x l)) in Hz.
      destruct Hz as [<-|Hz]; [apply key_lt_asym; exact Hyx | auto].
    + constructor; [constructor; assumption|].
      constructor; [exact Hyx|].
      eapply List.Forall_impl; [|exact Hall].
      intros z Hz. apply (key_le_trans x y z); [exact Hyx | exact Hz].
Qed.

Lemma stable_sort_sorted l : StronglySorted key_le (stable_sort l).
Proof.
  induction l as [|x l IH]; simpl; [constructor|].
  apply sort_insert_sorted. exact IH.
Qed.

Lemma filter_cons_app {A} (f : A -> bool) (y : A) (l : list A) :
  List.filter f (y :: l) = (if f y then [y] else []) ++ List.filter f l.
Proof. simpl. destruct (f y); reflexivity. Qed.

Lemma sort_insert_stable e x l :
  List.filter (same_key e) (sort_insert x l)
  = List.filter (same_key e) (x :: l).
Proof.
  induction l as [|y l IH]; [reflexivity|].
  simpl sort_insert. destruct (key_lt y x) eqn:Hyx; [|reflexivity].
  rewrite (filter_cons_app _ y (sort_insert x l)), IH.
  rewrite (filter_cons_app _ x (y :: l)), (filter_cons_app _ y l),
    (filter_cons_app _ x l).
  unfold same_key.
  destruct (key_compare e y) eqn:Hey; try reflexivity.
  destruct (key_compare e x) eqn:Hex; try reflexivity.
  rewrite key_lt_compare in Hyx.
  rewrite key_compare_antisym in Hey.
  destruct (key_compare y e) eqn:Hye; try discriminate.
  rewrite (key_compare_eq _ _ _ Hye), Hex in Hyx. discriminate.
Qed.

Lemma stable_sort_stable e l :
  List.filter (same_key e) (stable_sort l) = List.filter (same_key e) l.
Proof.
  induction l as [|x l IH]; [reflexivity|].
  simpl stable_sort. rewrite sort_insert_stable. simpl. now rewrite IH.
Qed.

(** X25. [get_unique_episodes] returns the first-seen entries sorted by the
    key (season, episode number), both compared as strings: the result is
    a rearrangement of the entries collected by the loop, no entry stands
    before one with a smaller key, and entries with equal keys keep the
    order in which the loop collected them. *)
Theorem get_unique_episodes_sorted segments :
  Permutation (get_unique_episodes segments) (first_seen segments) /\
  StronglySorted (fun a b => key_lt b a = false)
                 (get_unique_episodes segments) /\
  (forall e,
     List.filter (same_key e) (get_unique_episodes segments)
     = List.filter (same_key e) (first_seen segments)).
Proof.
  unfold get_unique_episodes. fold (first_seen segments).
  split; [apply stable_sort_perm|].
  split; [apply stable_sort_sorted | intros e; apply stable_sort_stable].
Qed.

Lemma truthy_nonempty (v : string) : Py.truthy v = true <-> v <> "".
Proof. destruct v; simpl; split; congruence. Qed.

Lemma unique_loop_inv (segments : list chunk) :
  unique_inv segments (fold_left unique_step segments (∅, [])).
Proof.
  induction segments as [|s processed IH] using rev_ind.
  - repeat split; simpl; try constructor; try set_solver; intros ? [].
  - rewrite fold_left_app. simpl.
    destruct (fold_left unique_step processed (∅, [])) as [seen eps].
    destruct IH as (Hseen & Hnd & Hfirst & Hall). simpl in *.
    assert (Hfirst' : forall e, In e eps ->
              exists before s0 after,
                processed ++ [s] = before ++ s0 :: after /\
                video_id s0 <> "" /\
                (forall x, In x before -> video_id x <> video_id s0) /\
                e = entry_of s0).
    { intros e He. destruct (Hfirst e He) as (b & s0 & a & -> & H1 & H2 & H3).
      exists b, s0, (a ++ [s]). rewrite <- app_assoc. simpl. auto. }
    unfold unique_step. simpl.
    destruct (Py.truthy (video_id s)) eqn:Hv; simpl.
    + apply truthy_nonempty in Hv.
      destruct (bool_decide (video_id s ∈ seen)) eqn:Hin; simpl.
      * apply bool_decide_eq_true in Hin. unfold unique_inv. cbn [fst snd].
        repeat split; try assumption; try apply Hseen.
        intros x Hx Hne. apply in_app_or in Hx as [Hx|[<-|[]]]; [auto|].
        apply Hseen. exact Hin.
      * apply bool_decide_eq_false in Hin.
        assert (Hnew : ~ In (video_id s) (map ep_video_id eps)).
        { intros H. apply Hin, Hseen. exact H. }
        unfold unique_inv. cbn [fst snd].
        split; [|split; [|split]].
        { intros v. rewrite map_app, in_app_iff. simpl.
          rewrite elem_of_union, elem_of_singleton, Hseen.
          intuition congruence. }
        { rewrite map_app. simpl. apply NoDup_app_snoc; assumption. }
        { intros e He. apply in_app_or in He as [He|[<-|[]]]; [auto|].
          exists processed, s, []. repeat split; [exact Hv|].
          intros x Hx Heq. apply Hnew. rewrite <- Heq.
          apply Hall; [exact Hx | rewrite Heq; exact Hv]. }
        { intros x Hx Hne. rewrite map_app, in_app_iff.
          apply in_app_or in Hx as [Hx|[<-|[]]]; [left; auto|].
          right. left. reflexivity. }
    + unfold unique_inv. cbn [fst snd].
      repeat split; try assumption; try apply Hseen.
      intros x Hx Hne. apply in_app_or in Hx as [Hx|[<-|[]]]; [auto|].
      exfalso. apply Hne. destruct (video_id s); [reflexivity | discriminate].
Qed.

(** X26. [get_unique_episodes] lists every video id of the segments that
    is not the empty string exactly once, and no other id; the entry of an
    id is made from the first segment with that id. *)
Theorem get_unique_episodes_first_of_each segments :
  List.NoDup (map ep_video_id (get_unique_episodes segments)) /\
  (forall v,
     In v (map ep_video_id (get_unique_episodes segments)) <->
     v <> "" /\ In v (map video_id segments)) /\
  (forall e,
     In e (get_unique_episodes segments) ->
     exists before s after,
       segments = before ++ s :: after /\
       (forall x, In x before -> video_id x <> video_id s) /\
       e = entry_of s).
Proof.
  assert (Hperm : Permutation (get_unique_episodes segments)
                              (first_seen segments))
    by apply stable_sort_perm.
  destruct (unique_loop_inv segments) as (_ & Hnd & Hfirst & Hall).
  fold (first_seen segments) in Hnd, Hfirst, Hall.
  split; [|split].
  - eapply Permutation_NoDup; [|exact Hnd].
    apply Permutation_map. symmetry. exact Hperm.
  - intros v. split.
    + intros Hin. apply in_map_iff in Hin as (e & <- & He).
      apply (Permutation_in _ Hperm) in He.
      destruct (Hfirst e He) as (b & s & a & -> & Hne & _ & ->).
      split; [exact Hne|]. apply in_map_iff. exists s.
      split; [reflexivity|]. apply in_or_app. right. left. reflexivity.
    + intros [Hne Hin]. apply in_map_iff in Hin as (s & <- & Hs).
      apply (Permutation_in _ (Permutation_map ep_video_id
                                 (Permutation_sym Hperm))).
      apply Hall; assumption.
  - intros e He. apply (Permutation_in _ Hperm) in He.
    destruct (Hfirst e He) as (b & s & a & H1 & _ & H2 & H3).
    exists b, s, a. auto.
Qed.

Lemma get_unique_episodes_first_of_each_witness :
  exists before s after,
    [Ex.result_at HeaderChunk 2139; Ex.result_at WindowChunk 2150]
    = before ++ s :: after /\
    (forall x, In x before -> video_id x <> video_id s) /\
    entry_of (Ex.result_at HeaderChunk 2139) = entry_of s.
Proof.
  destruct (get_unique_episodes_first_of_each
              [Ex.result_at HeaderChunk 2139; Ex.result_at WindowChunk 2150])
    as (_ & _ & H).
  apply (H (entry_of (Ex.result_at HeaderChunk 2139))).
  vm_compute. left. reflexivity.
Defined.

(* ------------------------------------------------------------------ *)
(** ** Startup *)

(** X27. When no file of the directory yields a chunk (each file fails to
    parse, has no transcript, or has a transcript without spoken lines),
    [startup] ends with [SystemExit(1)] and does not build an index. *)
Theorem startup_exits_without_segments build_index api_key found :
  kept_files found <> [] ->
  (forall f, In f (kept_files found) -> segments_of f = []) ->
  startup build_index api_key (Some found) = (Exits 1, []).
Proof.
  intros Hne Hnone. unfold startup, load_all_episodes, load_run.
  fold (kept_files found).
  destruct (kept_files found) as [|f files] eqn:Hk; [contradiction|].
  assert (Hflat : flat_map segments_of (f :: files) = []).
  { clear -Hnone. induction (f :: files) as [|g gs IH]; [reflexivity|].
    simpl. rewrite (Hnone g) by (left; reflexivity).
    apply IH. intros h Hh. apply Hnone. right. exact Hh. }
  rewrite load_loop_closed_form. cbn [all_segments failed app].
  rewrite Hflat. reflexivity.
Qed.

Lemma startup_exits_without_segments_witness :
  startup (fun _ => Ex.generous_index) (Some "key")
          (Some [Ex.empty_file; Ex.broken_file])
  = (Exits 1, []).
Proof.
  apply (startup_exits_without_segments (fun _ => Ex.generous_index)
           (Some "key") [Ex.empty_file; Ex.broken_file]).
  - discriminate.
  - intros f [<-|[<-|[]]]; reflexivity.
Defined.

(** X28. [startup] always ends. It builds at most one index, never from an
    empty list of segments, and builds none when loading raises; when it
    returns, the API key is set and not empty, the segments are the loaded
    ones and not empty, and the object it returns searches the index built
    from them with [top_k = 5] and the default model. *)
Theorem startup_invariants build_index api_key episodes_dir :
  let outcome := fst (startup build_index api_key episodes_dir) in
  let builds := snd (startup build_index api_key episodes_dir) in
  outcome <> Hangs /\
  (builds = [] \/
   exists segments,
     builds = [segments] /\ segments <> [] /\
     load_all_episodes episodes_dir = Returns segments) /\
  (forall e, load_all_episodes episodes_dir = Raises e ->
             outcome = Fails e /\ builds = []) /\
  (forall rag segments,
     outcome = Ready rag segments ->
     given api_key <> None /\
     segments <> [] /\
     load_all_episodes episodes_dir = Returns segments /\
     rag = {| self_index := build_index segments;
              self_segments := segments;
              self_model := default_model;
              self_top_k := 5 |}).
Proof.
  cbv zeta. unfold startup.
  pose proof (load_all_episodes_never_diverges episodes_dir) as Hnd.
  destruct (load_all_episodes episodes_dir) as [[|c cs]|e|] eqn:Hload;
    try contradiction.
  - simpl. repeat split; try discriminate; auto.
  - unfold new_PodcastRAG, given.
    destruct api_key as [[|k key]|]; simpl.
    + repeat split; try discriminate.
      right. exists (c :: cs). repeat split. discriminate.
    + repeat split; try discriminate.
      * right. exists (c :: cs). repeat split. discriminate.
      * injection H as <- <-. discriminate.
      * injection H as <- <-. reflexivity.
      * injection H as <- <-. reflexivity.
    + repeat split; try discriminate.
      right. exists (c :: cs). repeat split. discriminate.
  - simpl. repeat split; try discriminate; auto.
    + injection H as <-. reflexivity.
Qed.
